(** * GitHub / Obsidian MCP servers: a shallow embedding and its properties

    The development embeds the two tool servers of the repository,
    [Github_Server.py] and [Obsidian_Server.py].

    Conventions of the embedding.
    - A Python [str] is a Rocq [string]; its characters stand for the code
      points U+0000 to U+00FF.
    - The objects produced by [response.json()] are values of [json]; a
      Python [dict] is an association list read by its first binding,
      [None] is [JNull], and the numbers are the integers.
    - A Python exception is a value of [exn] (class and text); code that
      can raise lives in the monad [result], stateful code in [io].
    - [print] only writes to the standard output and is left out.
    - What the code hands to [json.dumps] is kept as a [payload]: the
      value together with the [indent] argument. *)

From stdpp Require Import gmap strings list fin_maps.
From Stdlib Require Import Ascii String ZArith.

Set Warnings "-register-all".

(** ** Python exceptions and the error monad *)

Inductive exn_class :=
  | NameError | AttributeError | TypeError | ValueError | KeyError
  | HTTPError | ConnectionError | Timeout | RequestException
  | OSError | FileNotFoundError | FileExistsError | NotADirectoryError
  | IsADirectoryError.

Record exn := Exn { exn_cls : exn_class; exn_text : string }.

#[global] Instance exn_class_eq_dec : EqDecision exn_class.
Proof. solve_decision. Defined.

(** [isinstance(e, requests.exceptions.HTTPError)] *)
Definition is_HTTPError (e : exn) : bool :=
  match exn_cls e with HTTPError => true | _ => false end.

(** [isinstance(e, requests.exceptions.RequestException)]: the library's
    own exceptions, of which [HTTPError], [ConnectionError] and [Timeout]
    are subclasses. *)
Definition is_RequestException (e : exn) : bool :=
  match exn_cls e with
  | HTTPError | ConnectionError | Timeout | RequestException => true
  | _ => false
  end.

(** [isinstance(e, OSError)] *)
Definition is_OSError (e : exn) : bool :=
  match exn_cls e with
  | OSError | FileNotFoundError | FileExistsError | NotADirectoryError
  | IsADirectoryError => true
  | _ => is_RequestException e
  end.

Inductive result (A : Type) : Type :=
  | Ok (a : A)
  | Raise (e : exn).
Arguments Ok {A} a.
Arguments Raise {A} e.

#[global] Instance result_ret : MRet result := @Ok.
#[global] Instance result_bind : MBind result := fun A B f m =>
  match m with
  | Ok a => f a
  | Raise e => Raise e
  end.

(** [try: m  except C as e: h e], where [catches] decides [isinstance(e, C)] *)
Definition try_except {A} (m : result A) (catches : exn -> bool)
    (h : exn -> result A) : result A :=
  match m with
  | Ok a => Ok a
  | Raise e => if catches e then h e else Raise e
  end.

(** [except Exception]: every modelled class derives from [Exception]. *)
Definition is_Exception (e : exn) : bool := true.

(** ** Python strings *)

Definition dquote : string := String (ascii_of_nat 34) EmptyString.
Definition LF : ascii := ascii_of_nat 10.
Definition CR : ascii := ascii_of_nat 13.

Fixpoint chars (s : string) : list ascii :=
  match s with
  | EmptyString => []
  | String a s' => a :: chars s'
  end.

Fixpoint of_chars (l : list ascii) : string :=
  match l with
  | [] => EmptyString
  | a :: l' => String a (of_chars l')
  end.

(** [len(s)] *)
Definition len (s : string) : nat := String.length s.

(** [s[:n]] *)
Definition slice_to (n : nat) (s : string) : string := of_chars (take n (chars s)).

(** [s[n:]] *)
Definition slice_from (n : nat) (s : string) : string := of_chars (drop n (chars s)).

(** [s.endswith(suf)] *)
Definition endswith (s suf : string) : bool :=
  bool_decide (chars suf `suffix_of` chars s).

(** [sub in s] *)
Fixpoint is_substring_chars (sub l : list ascii) : bool :=
  bool_decide (sub `prefix_of` l) ||
  match l with
  | [] => false
  | _ :: l' => is_substring_chars sub l'
  end.
Definition is_substring (sub s : string) : bool := is_substring_chars (chars sub) (chars s).

(** [s.rfind(".")]: index of the last dot, [None] for -1. *)
Fixpoint rfind_dot_from (i : nat) (l : list ascii) : option nat :=
  match l with
  | [] => None
  | a :: l' =>
      match rfind_dot_from (S i) l' with
      | Some j => Some j
      | None => if bool_decide (a = "."%char) then Some i else None
      end
  end.
Definition rfind_dot (s : string) : option nat := rfind_dot_from 0 (chars s).

(** [s.lower()], on the code points below U+0100: the ASCII capitals and
    the capitals of Latin-1 (U+00C0 to U+00DE, the multiplication sign
    U+00D7 apart) move up by 32. *)
Definition lower_char (a : ascii) : ascii :=
  let n := nat_of_ascii a in
  if bool_decide (65 <= n <= 90) then ascii_of_nat (n + 32)
  else if bool_decide (192 <= n <= 222 ∧ n ≠ 215) then ascii_of_nat (n + 32)
  else a.
Definition lower (s : string) : string := of_chars (lower_char <$> chars s).

(** ** JSON values as Python objects *)

Inductive json :=
  | JNull
  | JBool (b : bool)
  | JNum (n : Z)
  | JStr (s : string)
  | JArr (l : list json)
  | JObj (kvs : list (string * json)).

Record payload := Dumps { dumped : json; indent : option nat }.

(** [json.dumps(v)] and [json.dumps(v, indent=2)] *)
Definition json_dumps (v : json) : payload := Dumps v None.
Definition json_dumps_indent (v : json) (n : nat) : payload := Dumps v (Some n).

(** Truth value of an object in a condition. *)
Definition truthy (v : json) : bool :=
  match v with
  | JNull => false
  | JBool b => b
  | JNum n => negb (Z.eqb n 0)
  | JStr s => negb (bool_decide (s = ""))
  | JArr l => negb (bool_decide (l = []))
  | JObj kvs => negb (bool_decide (kvs = []))
  end.

(** [v == s] for a string [s]: only an equal string compares equal. *)
Definition eq_str (v : json) (s : string) : bool :=
  match v with
  | JStr t => bool_decide (t = s)
  | _ => false
  end.

(** [type(v).__name__] *)
Definition type_name (v : json) : string :=
  match v with
  | JNull => "NoneType"
  | JBool _ => "bool"
  | JNum _ => "int"
  | JStr _ => "str"
  | JArr _ => "list"
  | JObj _ => "dict"
  end.

Fixpoint assoc (k : string) (kvs : list (string * json)) : option json :=
  match kvs with
  | [] => None
  | (k', v) :: rest => if bool_decide (k = k') then Some v else assoc k rest
  end.

(** [k in d] for a dict [d] *)
Definition has_key (k : string) (kvs : list (string * json)) : bool :=
  match assoc k kvs with Some _ => true | None => false end.

(** [v.get(k, default)]: only a dict has the method. *)
Definition py_get_default (v : json) (k : string) (default : json) : result json :=
  match v with
  | JObj kvs => Ok (match assoc k kvs with Some x => x | None => default end)
  | _ => Raise (Exn AttributeError
                 ("'" +:+ type_name v +:+ "' object has no attribute 'get'"))
  end.

(** [v.get(k)] *)
Definition py_get (v : json) (k : string) : result json := py_get_default v k JNull.

(** [v[k]] with a string key, as used on a dict. *)
Definition py_index (v : json) (k : string) : result json :=
  match v with
  | JObj kvs =>
      match assoc k kvs with
      | Some x => Ok x
      | None => Raise (Exn KeyError ("'" +:+ k +:+ "'"))
      end
  | _ => Raise (Exn TypeError ("'" +:+ type_name v +:+ "' object is not subscriptable"))
  end.

(** [for x in v]: the items the loop visits. *)
Definition py_iter (v : json) : result (list json) :=
  match v with
  | JArr l => Ok l
  | JObj kvs => Ok ((λ kv, JStr (fst kv)) <$> kvs)
  | JStr s => Ok ((λ a, JStr (String a EmptyString)) <$> chars s)
  | _ => Raise (Exn TypeError ("'" +:+ type_name v +:+ "' object is not iterable"))
  end.

(** [len(v)] *)
Definition py_len (v : json) : result nat :=
  match v with
  | JStr s => Ok (len s)
  | JArr l => Ok (List.length l)
  | JObj kvs => Ok (List.length kvs)
  | _ => Raise (Exn TypeError ("object of type '" +:+ type_name v +:+ "' has no len()"))
  end.

(** [v[:n]] *)
Definition py_slice_to (n : nat) (v : json) : result json :=
  match v with
  | JStr s => Ok (JStr (slice_to n s))
  | JArr l => Ok (JArr (take n l))
  | JObj _ => Raise (Exn TypeError "unhashable type: 'slice'")
  | _ => Raise (Exn TypeError ("'" +:+ type_name v +:+ "' object is not subscriptable"))
  end.

(** [v + w] on the values the code adds: a slice and a string literal. *)
Definition py_add (v w : json) : result json :=
  match v, w with
  | JStr s, JStr t => Ok (JStr (s +:+ t))
  | JArr l, JArr l' => Ok (JArr (l ++ l'))
  | JArr _, _ =>
      Raise (Exn TypeError ("can only concatenate list (not " +:+ dquote +:+
                            type_name w +:+ dquote +:+ ") to list"))
  | _, _ =>
      Raise (Exn TypeError ("unsupported operand type(s) for +: '" +:+
                            type_name v +:+ "' and '" +:+ type_name w +:+ "'"))
  end.

(** [os.getenv(name)] gives [None] or a string; [if not value] holds for
    [None] and for the empty string. *)
Definition env_unset (v : option string) : bool :=
  match v with
  | None => true
  | Some s => bool_decide (s = "")
  end.

(** * The remote-repository tools, [Github_Server.py] *)

Module Github.

(** What the code reads of a [requests.Response]. *)
Record Response := {
  resp_json : result json;          (* [response.json()] *)
  resp_text : string;               (* [response.text] *)
  resp_encoding : option string     (* [response.encoding] *)
}.

(** The transport layer, the [requests] library talking to the network.
    [net_request method url] is [requests.request(method, url, headers=...,
    timeout=20)] followed by [raise_for_status()]; [net_get url] is
    [requests.get(url, timeout=30)], whose argument is whatever object the
    metadata holds. *)
Record Network := {
  net_request : string -> string -> result Response;
  net_get : json -> result Response
}.

Record GitHubHelper := {
  owner : string;
  repo : string;
  github_token : string
}.

Definition configuration_error : json :=
  JObj [("error", JStr "ConfigurationError");
        ("error_message", JStr ("GITHUB_TOKEN environment variable not set on the server. " +:+
           "Please ensure it's configured for the MCP server process " +:+
           "(e.g., in Claude Desktop's mcpServers config)."))].

Section Tools.

Context (net : Network).

(** [base64.b64decode(content_b64).decode('utf-8')], a library call: it
    returns the text or raises ([binascii.Error], [UnicodeDecodeError],
    [TypeError] for an object that is no string). *)
Context (b64decode_utf8 : json -> result string).

(** The value of [os.getenv("GITHUB_TOKEN")] at the call. *)
Context (GITHUB_TOKEN : option string).

Definition _make_github_request (self : GitHubHelper) (method endpoint : string)
    : result Response :=
  let url := "https://api.github.com/repos/" +:+ owner self +:+ "/" +:+
             repo self +:+ "/" +:+ endpoint in
  try_except (net_request net method url) is_Exception (λ e, Raise e).

(** [pr.get(k, {}).get(sub) if pr.get(k) else None] *)
Definition nested_field (pr : json) (k sub : string) : result json :=
  c ← py_get pr k;
  if truthy c then o ← py_get_default pr k (JObj []); py_get o sub
  else mret JNull.

(** The expression bound to ["body_summary"]. *)
Definition body_summary (pr : json) : result json :=
  b ← py_get pr "body";
  long ← (if truthy b
          then b' ← py_get_default pr "body" (JStr "");
               n ← py_len b';
               mret (bool_decide (200 < n))
          else mret false);
  if long : bool
  then b' ← py_get_default pr "body" (JStr "");
       s ← py_slice_to 200 b';
       py_add s (JStr "...")
  else py_get_default pr "body" (JStr "").

(** The dictionary returned for a merged pull request. *)
Definition pr_summary (pr : json) : result json :=
  number ← py_get pr "number";
  title ← py_get pr "title";
  url ← py_get pr "html_url";
  merged_at ← py_get pr "merged_at";
  merged_by ← nested_field pr "merged_by" "login";
  author ← nested_field pr "user" "login";
  body ← body_summary pr;
  head ← nested_field pr "head" "sha";
  base ← nested_field pr "base" "ref";
  mret (JObj [("number", number); ("title", title); ("url", url);
              ("merged_at", merged_at); ("merged_by", merged_by);
              ("author", author); ("body_summary", body);
              ("head_commit_sha", head); ("base_branch", base)]).

(** The loop [for pr in pull_requests]; [None] when it runs to its end. *)
Fixpoint scan_pull_requests (prs : list json) : result (option json) :=
  match prs with
  | [] => mret None
  | pr :: rest =>
      m ← py_get pr "merged_at";
      if truthy m then d ← pr_summary pr; mret (Some d)
      else scan_pull_requests rest
  end.

Definition get_last_merged_pr_details (self : GitHubHelper) : result (option json) :=
  try_except
    (response ← _make_github_request self "GET"
                  "pulls?state=closed&sort=updated&direction=desc&per_page=10";
     pull_requests ← resp_json response;
     prs ← py_iter pull_requests;
     scan_pull_requests prs)
    is_Exception
    (λ e, mret (Some (JObj [("error_message",
             JStr ("Failed to retrieve or process last merged PR details: " +:+
                   exn_text e))]))).

(** The dictionary appended for one item of a listing. *)
Definition dir_entry (item : json) : result json :=
  name ← py_get item "name";
  path ← py_get item "path";
  type ← py_get item "type";
  size ← py_get item "size";
  sha ← py_get item "sha";
  html_url ← py_get item "html_url";
  download_url ← py_get item "download_url";
  mret (JObj [("name", name); ("path", path); ("type", type); ("size", size);
              ("sha", sha); ("html_url", html_url);
              ("download_url", download_url)]).

Fixpoint dir_entries (items : list json) : result (list json) :=
  match items with
  | [] => mret []
  | item :: rest => d ← dir_entry item; ds ← dir_entries rest; mret (d :: ds)
  end.

Definition get_dir_content (self : GitHubHelper) (dir_path : string) : result json :=
  let endpoint := "contents/" +:+ dir_path in
  try_except
    (response ← _make_github_request self "GET" endpoint;
     items ← resp_json response;
     l ← py_iter items;
     dir_content ← dir_entries l;
     mret (JArr dir_content))
    is_HTTPError
    (λ e, mret (JObj [("error_message",
             JStr ("Directory or path not found: " +:+ dir_path +:+ " in " +:+
                   owner self +:+ "/" +:+ repo self))])).

(** The two assignments to [decoded_content] and [encoding]. *)
Definition decode_file_data (file_data content_b64 encoding : json)
    : result (json * json) :=
  if truthy content_b64 && eq_str encoding "base64"
  then try_except
         (s ← b64decode_utf8 content_b64; mret (JStr s, encoding))
         is_Exception
         (λ _, mret (JStr "Error: Could not decode content.",
                     JStr "error_decoding_base64"))
  else
    d ← py_get file_data "download_url";
    if truthy d
    then try_except
           (u ← py_index file_data "download_url";
            raw_response ← net_get net u;
            mret (JStr (resp_text raw_response),
                  JStr (match resp_encoding raw_response with
                        | Some c => if bool_decide (c = "") then "utf-8" else c
                        | None => "utf-8"
                        end)))
           is_Exception
           (λ _, mret (JStr "Error: Could not download content.",
                       JStr "error_downloading"))
    else mret (JStr "", encoding).

Definition get_file_content (self : GitHubHelper) (file_path : string) : result json :=
  let endpoint := "contents/" +:+ file_path in
  try_except
    (response ← _make_github_request self "GET" endpoint;
     file_data ← resp_json response;
     content_b64 ← py_get file_data "content";
     encoding ← py_get file_data "encoding";
     '(decoded_content, encoding) ← decode_file_data file_data content_b64 encoding;
     name ← py_get file_data "name";
     path ← py_get file_data "path";
     sha ← py_get file_data "sha";
     size ← py_get file_data "size";
     html_url ← py_get file_data "html_url";
     download_url ← py_get file_data "download_url";
     mret (JObj [("name", name); ("path", path); ("sha", sha); ("size", size);
                 ("encoding", encoding); ("content", decoded_content);
                 ("html_url", html_url); ("download_url", download_url)]))
    is_HTTPError
    (λ e, mret (JObj [("error_message",
             JStr ("content not found: " +:+ file_path +:+ " in " +:+
                   owner self +:+ "/" +:+ repo self))])).

(** [k in v] for a string [k]: a key of a dict, an item of a list, a
    part of a string. *)
Definition py_in (k : string) (v : json) : result bool :=
  match v with
  | JObj kvs => Ok (has_key k kvs)
  | JArr l => Ok (existsb (λ x, eq_str x k) l)
  | JStr s => Ok (is_substring k s)
  | _ => Raise (Exn TypeError ("argument of type '" +:+ type_name v +:+ "' is not iterable"))
  end.

(** The three tools. *)

Definition get_github_last_merged_pr (owner repo : string) : result payload :=
  if env_unset GITHUB_TOKEN then mret (json_dumps configuration_error)
  else
    let github_token := default "" GITHUB_TOKEN in
    try_except
      (let gh_helper := Build_GitHubHelper owner repo github_token in
       pr_data ← get_last_merged_pr_details gh_helper;
       match pr_data with
       | None =>
           mret (json_dumps (JObj [("message",
              JStr ("No recently merged PRs found for " +:+ owner +:+ "/" +:+
                    repo +:+ "."))]))
       | Some d =>
           err ← py_in "error_message" d;
           if err : bool then mret (json_dumps d)
           else mret (json_dumps_indent d 2)
       end)
      is_Exception
      (λ e, mret (json_dumps (JObj
         [("error", JStr "ToolExecutionError");
          ("error_message",
           JStr ("An unexpected error occurred in the tool: " +:+ exn_text e));
          ("details", JObj [("owner", JStr owner); ("repo", JStr repo)])]))).

Definition get_repo_contents (owner repo path : string) : result payload :=
  if env_unset GITHUB_TOKEN then mret (json_dumps configuration_error)
  else
    let github_token := default "" GITHUB_TOKEN in
    let gh_helper := Build_GitHubHelper owner repo github_token in
    contents ← get_dir_content gh_helper path;
    mret (json_dumps_indent contents 2).

Definition get_file_contents (owner repo path : string) : result payload :=
  if env_unset GITHUB_TOKEN then mret (json_dumps configuration_error)
  else
    let github_token := default "" GITHUB_TOKEN in
    let gh_helper := Build_GitHubHelper owner repo github_token in
    file_content ← get_file_content gh_helper path;
    (* [file_content is None] never holds: the helper returns a dict *)
    err ← py_in "error_message" file_content;
    if err : bool then mret (json_dumps file_content)
    else mret (json_dumps_indent file_content 2).

End Tools.

End Github.

(** * The local-vault tools, [Obsidian_Server.py] *)

Module Obsidian.

(** ** [pathlib] paths (POSIX flavour)

    A path is its root ([""], ["/"] or ["//"]) and the components that
    follow it.  Parsing drops empty components and ["."], and keeps
    [".."]. *)

Inductive anchor := Relative | Root | Root2.

#[global] Instance anchor_eq_dec : EqDecision anchor.
Proof. solve_decision. Defined.

Record Path := MkPath { path_anchor : anchor; parts : list string }.

#[global] Instance Path_eq_dec : EqDecision Path.
Proof. solve_decision. Defined.

(** [s.split("/")] *)
Fixpoint split_slash (s : string) : list string :=
  match s with
  | EmptyString => [""]
  | String a s' =>
      let r := split_slash s' in
      if bool_decide (a = "/"%char) then "" :: r
      else match r with
           | x :: xs => String a x :: xs
           | [] => [String a ""]
           end
  end.

(** [posixpath.splitroot]: exactly two leading slashes make the root
    ["//"], one or more than two make it ["/"]. *)
Definition splitroot (s : string) : anchor * string :=
  match s with
  | String "/" (String "/" (String "/" r)) => (Root, String "/" (String "/" r))
  | String "/" (String "/" r) => (Root2, r)
  | String "/" r => (Root, r)
  | _ => (Relative, s)
  end.

(** [Path(s)] *)
Definition parse_path (s : string) : Path :=
  let '(a, rest) := splitroot s in
  MkPath a (filter (λ x, x ≠ "" ∧ x ≠ ".") (split_slash rest)).

(** [p / s] for a string [s]: an absolute [s] replaces [p]. *)
Definition joinpath (p : Path) (s : string) : Path :=
  let q := parse_path s in
  match path_anchor q with
  | Relative => MkPath (path_anchor p) (parts p ++ parts q)
  | _ => q
  end.

Definition anchor_str (a : anchor) : string :=
  match a with Relative => "" | Root => "/" | Root2 => "//" end.

Fixpoint join_slash (l : list string) : string :=
  match l with
  | [] => ""
  | [x] => x
  | x :: rest => x +:+ "/" +:+ join_slash rest
  end.

(** [str(p)] *)
Definition path_str (p : Path) : string :=
  match path_anchor p, parts p with
  | Relative, [] => "."
  | a, ps => anchor_str a +:+ join_slash ps
  end.

(** [p.name] *)
Definition name (p : Path) : string := default "" (last (parts p)).

(** The suffix of a file name: what follows its last dot, the dot
    included, unless that dot is the first or the last character. *)
Definition name_suffix (n : string) : string :=
  match rfind_dot n with
  | Some i => if bool_decide (0 < i ∧ i < len n - 1) then slice_from i n else ""
  | None => ""
  end.

(** [p.suffix] *)
Definition suffix (p : Path) : string := name_suffix (name p).

(** [p.parent]: a path without components is its own parent. *)
Definition parent (p : Path) : Path := MkPath (path_anchor p) (removelast (parts p)).

(** A [Path] object is always true in a condition. *)
Definition path_truthy (p : Path) : bool := true.

(** [p.relative_to(other)] *)
Definition relative_to (p other : Path) : result Path :=
  if bool_decide (path_anchor p = path_anchor other) &&
     bool_decide (parts other `prefix_of` parts p)
  then Ok (MkPath Relative (drop (List.length (parts other)) (parts p)))
  else Raise (Exn ValueError ("'" +:+ path_str p +:+ "' is not in the subpath of '" +:+
                              path_str other +:+ "'")).

(** ** The file system

    The tree of one POSIX file system without symbolic links: a finite
    map from the absolute location of an entry, its components from the
    root, to a directory or a regular file with its text.  The root is
    always a directory.  Files hold UTF-8 text, so decoding what encoding
    wrote is the identity.  The tree carries no owners and no modes: the
    process may search every directory and write every entry, and the
    device has room.  What the kernel refuses of a name is modelled: a
    component of more than [NAME_MAX] bytes, and a NUL character, which
    Python refuses before the call.  The limit on the length of a whole
    path is not part of the lookup. *)

Inductive node := Dir | File (content : string).

#[global] Instance node_eq_dec : EqDecision node.
Proof. solve_decision. Defined.

Abbreviation fstree := (gmap (list string) node).

Definition node_at (fs : fstree) (q : list string) : option node :=
  match q with
  | [] => Some Dir
  | _ => fs !! q
  end.

(** One step of a lookup: [".."] goes to the parent (the root is its own
    parent), a name goes down. *)
Definition step (cur : list string) (c : string) : list string :=
  if bool_decide (c = "..") then removelast cur else cur ++ [c].

(** The bytes of a name: the file-system encoding is UTF-8, which writes
    a code point below U+0080 on one byte and the others of the model on
    two. *)
Definition utf8_width (a : ascii) : nat :=
  let 'Ascii _ _ _ _ _ _ _ high := a in if high then 2 else 1.

Definition utf8_len (s : string) : nat := sum_list (utf8_width <$> chars s).

(** The longest name of a directory entry, in bytes. *)
Definition NAME_MAX : nat := 255.

(** A path the interpreter does not hand to the kernel: it holds the
    character U+0000. *)
Definition has_nul (s : string) : bool :=
  existsb (λ a, bool_decide (a = Ascii.zero)) (chars s).

(** The path lookup: every component is looked up in a directory, under a
    name the directory can hold; the location reached need not exist.
    The refusals are three [errno] values of the kernel and, before any
    of them, the interpreter's own for a NUL character. *)
Inductive errno := ENOENT | ENOTDIR | ENAMETOOLONG | NUL_CHARACTER.

#[global] Instance errno_eq_dec : EqDecision errno.
Proof. solve_decision. Defined.

Fixpoint walk (fs : fstree) (cur : list string) (comps : list string)
    : errno + list string :=
  match comps with
  | [] => inr cur
  | c :: rest =>
      if existsb has_nul (c :: rest) then inl NUL_CHARACTER
      else
        match node_at fs cur with
        | Some Dir =>
            if bool_decide (NAME_MAX < utf8_len c) then inl ENAMETOOLONG
            else walk fs (step cur c) rest
        | Some (File _) => inl ENOTDIR
        | None => inl ENOENT
        end
  end.

(** The same walk on the names alone: [os.path.normpath]. *)
Definition normalize (comps : list string) : list string := foldl step [] comps.

Definition os_error (e : errno) (p : Path) : exn :=
  match e with
  | ENOENT => Exn FileNotFoundError
                ("[Errno 2] No such file or directory: '" +:+ path_str p +:+ "'")
  | ENOTDIR => Exn NotADirectoryError
                ("[Errno 20] Not a directory: '" +:+ path_str p +:+ "'")
  | ENAMETOOLONG => Exn OSError
                ("[Errno 36] File name too long: '" +:+ path_str p +:+ "'")
  | NUL_CHARACTER => Exn ValueError "embedded null byte"
  end.

(** Text mode with [newline=None]: reading turns every line ending, CR LF,
    CR or LF, into LF (universal newlines); writing on POSIX leaves the
    text as it is.  [after_cr] tells that the previous character was a CR,
    whose LF is then dropped. *)
Fixpoint universal_newlines_from (after_cr : bool) (l : list ascii) : list ascii :=
  match l with
  | [] => []
  | a :: rest =>
      if bool_decide (a = CR) then LF :: universal_newlines_from true rest
      else if bool_decide (a = LF) && after_cr then universal_newlines_from false rest
      else a :: universal_newlines_from false rest
  end.
Definition universal_newlines (s : string) : string :=
  of_chars (universal_newlines_from false (chars s)).

(** ** The state and error monad of the vault code *)

Definition io (A : Type) : Type := fstree → result A * fstree.

#[global] Instance io_ret : MRet io := λ A a fs, (Ok a, fs).
#[global] Instance io_bind : MBind io := λ A B f m fs,
  match m fs with
  | (Ok a, fs') => f a fs'
  | (Raise e, fs') => (Raise e, fs')
  end.

Definition raise {A} (e : exn) : io A := λ fs, (Raise e, fs).

(** A computation that only returns or raises. *)
Definition lift {A} (r : result A) : io A := λ fs, (r, fs).

(** [try: m  except C as e: h e]; what [m] wrote before it raised stays. *)
Definition try_io {A} (m : io A) (catches : exn → bool) (h : exn → io A) : io A :=
  λ fs, match m fs with
        | (Ok a, fs') => (Ok a, fs')
        | (Raise e, fs') => if catches e then h e fs' else (Raise e, fs')
        end.

Section Process.

(** The working directory of the server process, an absolute location. *)
Context (cwd : list string).

(** The module global [VAULT_PATH]: [None] when the name is not bound. *)
Context (VAULT_PATH : option Path).

(** The location a path names for the kernel. *)
Definition abs_parts (p : Path) : list string :=
  match path_anchor p with
  | Relative => cwd ++ parts p
  | _ => parts p
  end.

(** [os.stat(p)] *)
Definition os_stat (p : Path) : io node := λ fs,
  match walk fs [] (abs_parts p) with
  | inr q =>
      match node_at fs q with
      | Some n => (Ok n, fs)
      | None => (Raise (os_error ENOENT p), fs)
      end
  | inl e => (Raise (os_error e p), fs)
  end.

(** [pathlib._ignore_error]: the [OSError]s of a missing entry, whose
    [errno] is [ENOENT] or [ENOTDIR] ([EBADF] and [ELOOP] do not arise
    here). *)
Definition _ignore_error (e : exn) : bool :=
  match exn_cls e with
  | FileNotFoundError | NotADirectoryError => true
  | _ => false
  end.

(** The two handlers of [is_file] and [is_dir] (CPython up to 3.13):
    [except OSError] raises the error again unless [_ignore_error] holds
    of it, [except ValueError] gives [False]. *)
Definition stat_failed (e : exn) : io bool :=
  if is_OSError e
  then if negb (_ignore_error e) then raise e else mret false
  else mret false.

(** [p.is_file()] and [p.is_dir()]: a [stat] that fails for a missing
    entry gives [False]. *)
Definition is_file (p : Path) : io bool :=
  try_io (n ← os_stat p; mret (match n with File _ => true | Dir => false end))
         (λ e, is_OSError e || bool_decide (exn_cls e = ValueError))
         stat_failed.

Definition is_dir (p : Path) : io bool :=
  try_io (n ← os_stat p; mret (match n with Dir => true | File _ => false end))
         (λ e, is_OSError e || bool_decide (exn_cls e = ValueError))
         stat_failed.

(** [os.mkdir(p)] *)
Definition os_mkdir (p : Path) : io unit := λ fs,
  match walk fs [] (abs_parts p) with
  | inr q =>
      match node_at fs q with
      | Some _ => (Raise (Exn FileExistsError
                     ("[Errno 17] File exists: '" +:+ path_str p +:+ "'")), fs)
      | None => (Ok (), <[q := Dir]> fs)
      end
  | inl e => (Raise (os_error e p), fs)
  end.

(** [p.mkdir(parents=False, exist_ok=exist_ok)] *)
Definition mkdir (p : Path) (exist_ok : bool) : io unit :=
  try_io (os_mkdir p) is_OSError
    (λ e, if bool_decide (exn_cls e = FileNotFoundError) then raise e
          else if negb exist_ok then raise e
          else d ← is_dir p; if d : bool then mret () else raise e).

(** [p.mkdir(parents=True, exist_ok=True)], by recursion on the components
    of [p] read from the last one. *)
Fixpoint mkdir_parents_rev (a : anchor) (rparts : list string) : io unit :=
  let p := MkPath a (rev rparts) in
  try_io (os_mkdir p) is_OSError
    (λ e, if bool_decide (exn_cls e = FileNotFoundError) then
            match rparts with
            | [] => raise e
            | _ :: rparent =>
                _ ← mkdir_parents_rev a rparent;
                mkdir p true
            end
          else d ← is_dir p; if d : bool then mret () else raise e).

Definition mkdir_parents (p : Path) : io unit :=
  mkdir_parents_rev (path_anchor p) (rev (parts p)).

(** [p.read_text(encoding="utf-8")] *)
Definition read_text (p : Path) : io string := λ fs,
  match walk fs [] (abs_parts p) with
  | inr q =>
      match node_at fs q with
      | Some (File s) => (Ok (universal_newlines s), fs)
      | Some Dir => (Raise (Exn IsADirectoryError
                       ("[Errno 21] Is a directory: '" +:+ path_str p +:+ "'")), fs)
      | None => (Raise (os_error ENOENT p), fs)
      end
  | inl e => (Raise (os_error e p), fs)
  end.

(** [p.write_text(content, encoding="utf-8")]: the file is created or
    emptied, then receives the text. *)
Definition write_text (p : Path) (content : string) : io unit := λ fs,
  match walk fs [] (abs_parts p) with
  | inr q =>
      match node_at fs q with
      | Some Dir => (Raise (Exn IsADirectoryError
                       ("[Errno 21] Is a directory: '" +:+ path_str p +:+ "'")), fs)
      | _ => (Ok (), <[q := File content]> fs)
      end
  | inl e => (Raise (os_error e p), fs)
  end.

(** [p.open("a", encoding="utf-8")]: the location of the file, which is
    created empty when it is missing. *)
Definition open_append (p : Path) : io (list string) := λ fs,
  match walk fs [] (abs_parts p) with
  | inr q =>
      match node_at fs q with
      | Some Dir => (Raise (Exn IsADirectoryError
                       ("[Errno 21] Is a directory: '" +:+ path_str p +:+ "'")), fs)
      | Some (File _) => (Ok q, fs)
      | None => (Ok q, <[q := File ""]> fs)
      end
  | inl e => (Raise (os_error e p), fs)
  end.

(** [f.write(text)] on a file opened for appending: the text goes to the
    end of the file. *)
Definition append_write (f : list string) (text : string) : io unit := λ fs,
  match fs !! f with
  | Some (File s) => (Ok (), <[f := File (s +:+ text)]> fs)
  | _ => (Ok (), fs)
  end.

(** [p.resolve()]: without symbolic links, the absolute location with
    [".."] taken away by name; [os.path.realpath] writes it with the root
    ["/"].  The [lstat] and [stat] calls it makes on the way only look for
    links, and it passes over the [OSError]s they raise.  The definition
    is for the paths without a NUL character, on which [lstat] raises a
    [ValueError] instead. *)
Definition resolve (p : Path) : Path := MkPath Root (normalize (abs_parts p)).

(** Reading the global [VAULT_PATH]. *)
Definition load_VAULT_PATH : io Path :=
  match VAULT_PATH with
  | Some p => mret p
  | None => raise (Exn NameError "name 'VAULT_PATH' is not defined")
  end.

(** ** The helpers and the tools *)

Definition get_path (note_path : string) : io (option Path) :=
  vault ← load_VAULT_PATH;
  if negb (path_truthy vault) then mret None
  else
    let full_path := resolve (joinpath vault note_path) in
    mret (Some full_path).

Definition read_note (full_path : Path) : io (option string) :=
  if bool_decide (suffix full_path = ".md") then
    f ← is_file full_path;
    if f : bool then s ← read_text full_path; mret (Some s)
    else mret None
  else mret None.

Definition append_note (full_path : Path) (content_to_append : string)
    (ensure_newline : bool) : io bool :=
  try_io
    (f ← (if path_truthy full_path then is_file full_path else mret false);
     if (f : bool) && bool_decide (lower (suffix full_path) = ".md") then
       h ← open_append full_path;
       _ ← (if ensure_newline then
              current_content ← read_text full_path;
              if negb (bool_decide (current_content = "")) &&
                 negb (endswith current_content (String LF ""))
              then append_write h (String LF "")
              else mret ()
            else mret ());
       _ ← append_write h content_to_append;
       mret true
     else mret false)
    is_Exception
    (λ _, mret false).

Definition create_note (relative_path content : string) : io (option Path) :=
  vault ← load_VAULT_PATH;
  if negb (path_truthy vault) then mret None
  else
    let relative_path :=
      if negb (endswith relative_path ".md") then relative_path +:+ ".md"
      else relative_path in
    let full_path := joinpath vault relative_path in
    if negb (path_truthy full_path) then mret None
    else
      try_io
        (_ ← mkdir_parents (parent full_path);
         _ ← write_text full_path content;
         mret (Some full_path))
        is_Exception
        (λ _, mret None).

Definition error_payload (msg : string) : payload :=
  json_dumps (JObj [("error", JStr msg)]).

Definition get_obsidian_note (note_path : string) : io payload :=
  vault ← load_VAULT_PATH;
  if negb (path_truthy vault)
  then mret (error_payload "OBSIDIAN_VAULT_PATH not configured on server.")
  else
    full_path ← get_path note_path;
    match full_path with
    | None => mret (error_payload ("Invalid note path or access denied: " +:+ note_path))
    | Some full_path =>
        content ← read_note full_path;
        match content with
        | Some content =>
            mret (json_dumps (JObj [("path", JStr note_path); ("content", JStr content)]))
        | None =>
            mret (error_payload ("Note not found or could not be read: " +:+ note_path))
        end
    end.

Definition create_obsidian_note (relative_path content : string) : io payload :=
  vault ← load_VAULT_PATH;
  if negb (path_truthy vault)
  then mret (error_payload "VAULT_PATH not configured on server.")
  else
    create_path ← create_note relative_path content;
    match create_path with
    | Some create_path =>
        try_io
          (vault ← load_VAULT_PATH;
           created_relative_path_str ←
             (if path_truthy vault
              then r ← lift (relative_to create_path vault); mret (path_str r)
              else mret (path_str create_path));
           mret (json_dumps (JObj [("message", JStr "Note created/updated successfully.");
                                   ("path", JStr created_relative_path_str)])))
          (λ e, bool_decide (exn_cls e = ValueError))
          (λ _, mret (error_payload ("Failed to determine relative path for created note: " +:+
                                     path_str create_path)))
    | None => mret (error_payload ("Failed to create note at: " +:+ relative_path))
    end.

Definition append_obsidian_note (note_path content_to_append : string) : io payload :=
  vault ← load_VAULT_PATH;
  if negb (path_truthy vault)
  then mret (error_payload "VAULT_PATH not configured on server.")
  else
    full_path_obj ← get_path note_path;
    let not_found :=
      error_payload ("Note not found or is not a file (cannot append): " +:+ note_path) in
    match full_path_obj with
    | None => mret not_found
    | Some full_path_obj =>
        f ← (if path_truthy full_path_obj then is_file full_path_obj else mret false);
        if negb f then mret not_found
        else
          success ← append_note full_path_obj content_to_append true;
          if success : bool
          then mret (json_dumps (JObj [("message",
                  JStr ("Content appended to '" +:+ note_path +:+ "' successfully."))]))
          else mret (error_payload ("Failed to append content to note: " +:+ note_path))
    end.

End Process.

(** The top of the module: [VAULT_PATH] is bound only when the environment
    value [VAULT_PATH] is a non-empty string. *)
Definition module_init (VAULT_PATH_VALUE : option string) : option Path :=
  match VAULT_PATH_VALUE with
  | Some v => if env_unset VAULT_PATH_VALUE then None else Some (parse_path v)
  | None => None
  end.

End Obsidian.

(** * Reference notions for the statements *)

(** The value of a field of an object of the API, [None] when it is
    absent or when the value is no object. *)
Definition field (v : json) (k : string) : json :=
  match v with
  | JObj kvs => default JNull (assoc k kvs)
  | _ => JNull
  end.

(** The types of the fields the pull-request scan reads, as the API
    declares them: a timestamp is a non-empty string when present, a body
    is text, and the user, head and base entries are objects; each may be
    null or absent. *)
Definition is_timestamp (v : json) : bool :=
  match v with
  | JNull => true
  | JStr s => negb (bool_decide (s = ""))
  | _ => false
  end.

Definition is_text (v : json) : bool :=
  match v with JNull | JStr _ => true | _ => false end.

Definition is_record (v : json) : bool :=
  match v with JNull | JObj _ => true | _ => false end.

Definition api_pull_request (pr : json) : bool :=
  match pr with
  | JObj _ =>
      is_timestamp (field pr "merged_at") && is_text (field pr "body") &&
      is_record (field pr "merged_by") && is_record (field pr "user") &&
      is_record (field pr "head") && is_record (field pr "base")
  | _ => false
  end.





(** The address of an endpoint of a repository. *)
Definition api_url (owner repo endpoint : string) : string :=
  "https://api.github.com/repos/" +:+ owner +:+ "/" +:+ repo +:+ "/" +:+ endpoint.

Definition pulls_endpoint : string :=
  "pulls?state=closed&sort=updated&direction=desc&per_page=10".

(** ** Simulated transports and decoders for the examples *)

Definition json_response (v : json) : Github.Response :=
  {| Github.resp_json := Ok v; Github.resp_text := ""; Github.resp_encoding := None |}.

(** A transport that answers every request with the same object. *)
Definition answering (v : json) : Github.Network :=
  {| Github.net_request := λ _ _, Ok (json_response v);
     Github.net_get := λ _, Raise (Exn ConnectionError "connection refused") |}.

(** A transport on which every request fails with the same exception. *)
Definition failing (e : exn) : Github.Network :=
  {| Github.net_request := λ _ _, Raise e;
     Github.net_get := λ _, Raise e |}.

(** A decoder that knows one payload and rejects every other string for
    its padding, and every other object for its type. *)
Definition sample_decoder (v : json) : result string :=
  match v with
  | JStr s => if bool_decide (s = "aGVsbG8=") then Ok "hello"
              else Raise (Exn ValueError "Incorrect padding")
  | _ => Raise (Exn TypeError
           ("argument should be a bytes-like object or ASCII string, not '" +:+
            type_name v +:+ "'"))
  end.




(** The metadata of a file whose inline payload is cut short. *)
Definition sample_file_fields : list (string * json) :=
  [("name", JStr "main.py"); ("path", JStr "src/main.py");
   ("sha", JStr "f00"); ("size", JNum 3);
   ("encoding", JStr "base64"); ("content", JStr "abc");
   ("html_url", JStr "https://github.com/o/r/blob/main/src/main.py");
   ("download_url", JNull)].
Definition sample_file_data : json := JObj sample_file_fields.

Definition sample_listing : json :=
  JArr [JObj [("name", JStr "main.py"); ("path", JStr "src/main.py");
              ("type", JStr "file")]].

(** The entry a path names for the kernel, if it names one. *)
Definition entry (cwd : list string) (fs : gmap (list string) Obsidian.node)
    (p : Obsidian.Path) : option Obsidian.node :=
  match Obsidian.walk fs [] (Obsidian.abs_parts cwd p) with
  | inr q => Obsidian.node_at fs q
  | inl _ => None
  end.

(** The entry is a regular file. *)
Definition regular (o : option Obsidian.node) : bool :=
  match o with
  | Some (Obsidian.File _) => true
  | _ => false
  end.

(** What the code raises on reading the name [VAULT_PATH] unbound. *)
Definition unbound_VAULT_PATH : exn := Exn NameError "name 'VAULT_PATH' is not defined".

(** The text ends with a line ending, LF or CR. *)
Definition ends_a_line_chars (l : list ascii) : bool :=
  match last l with
  | Some a => bool_decide (a = LF) || bool_decide (a = CR)
  | None => false
  end.
Definition ends_a_line (s : string) : bool := ends_a_line_chars (chars s).

(** Every proper prefix of the location is a directory. *)
Definition dirs_above (fs : gmap (list string) Obsidian.node) (q : list string) : Prop :=
  ∀ k, (k < List.length q)%nat → Obsidian.node_at fs (take k q) = Some Obsidian.Dir.

(** The location has no component [".."]. *)
Definition plain (q : list string) : Prop := Forall (λ c, c ≠ "..") q.

(** What an append with [ensure_newline] puts between the text of the
    note and the appended text. *)
Definition separator (s : string) : string :=
  if negb (bool_decide (s = "")) && negb (ends_a_line s) then String LF "" else "".

(** The relative path of the note [create_note] writes: the given one,
    with [.md] after it unless it ends in [.md] already. *)
Definition with_md (relative_path : string) : string :=
  if endswith relative_path ".md" then relative_path else relative_path +:+ ".md".

(** The text holds no carriage return. *)
Definition no_CR (s : string) : bool := forallb (λ a, negb (bool_decide (a = CR))) (chars s).

(** ** Sample vaults for the examples *)

Definition sample_vault : Obsidian.Path := Obsidian.parse_path "/vault".

(** A file system that holds the directory of the vault and nothing else. *)
Definition empty_vault : gmap (list string) Obsidian.node :=
  {[ ["vault"] := Obsidian.Dir ]}.

(** The vault with one file in it. *)
Definition vault_with (file content : string) : gmap (list string) Obsidian.node :=
  <[ ["vault"; file] := Obsidian.File content ]> empty_vault.

(** Two lines, ended the DOS way and the Unix way, and a text that ends
    in a carriage return. *)
Definition dos_lines : string := String "a" (String CR (String LF "b")).
Definition unix_lines : string := String "a" (String LF "b").

(** * Reference notions for the further properties *)

(** The value is a JSON object. *)
Definition is_object (v : json) : bool :=
  match v with JObj _ => true | _ => false end.

(** The Directory Entry of an item of a listing. *)
Definition directory_entry (item : json) : json :=
  JObj [("name", field item "name");
        ("path", field item "path");
        ("type", field item "type");
        ("size", field item "size");
        ("sha", field item "sha");
        ("html_url", field item "html_url");
        ("download_url", field item "download_url")].

(** The File Content Record built from the metadata of a file, an
    encoding label and a content. *)
Definition file_record (file_data encoding content : json) : json :=
  JObj [("name", field file_data "name");
        ("path", field file_data "path");
        ("sha", field file_data "sha");
        ("size", field file_data "size");
        ("encoding", encoding);
        ("content", content);
        ("html_url", field file_data "html_url");
        ("download_url", field file_data "download_url")].

(** An item the scan passes over: an object whose [merged_at] is absent
    or false in a condition (null, the empty string). *)
Definition unmerged (pr : json) : bool :=
  is_object pr && negb (truthy (field pr "merged_at")).

(** An item the scan stops at. *)
Definition merged (pr : json) : bool :=
  is_object pr && truthy (field pr "merged_at").

(** The charset label of a downloaded body: the declared one, or
    [utf-8] when none is declared. *)
Definition charset_label (declared : option string) : string :=
  match declared with
  | Some c => if bool_decide (c = "") then "utf-8" else c
  | None => "utf-8"
  end.

(** A transport that answers the metadata request with [v] and the
    download with [raw]. *)
Definition downloading (v : json) (raw : result Github.Response) : Github.Network :=
  {| Github.net_request := λ _ _, Ok (json_response v);
     Github.net_get := λ _, raw |}.

(** The metadata of a large file: no inline payload, a download address. *)
Definition large_file_fields : list (string * json) :=
  [("name", JStr "data.csv"); ("path", JStr "data.csv");
   ("sha", JStr "beef"); ("size", JNum 2000000);
   ("encoding", JStr "none"); ("content", JStr "");
   ("html_url", JStr "https://github.com/o/r/blob/main/data.csv");
   ("download_url", JStr "https://raw.githubusercontent.com/o/r/main/data.csv")].

(** The metadata of a submodule entry: neither payload nor address. *)
Definition bare_fields : list (string * json) :=
  [("name", JStr "vendor"); ("path", JStr "vendor"); ("sha", JStr "cafe");
   ("size", JNum 0); ("download_url", JNull)].

(** The metadata of a small file with its inline payload. *)
Definition small_file_fields : list (string * json) :=
  [("name", JStr "hi.txt"); ("path", JStr "hi.txt"); ("sha", JStr "f00");
   ("size", JNum 5); ("encoding", JStr "base64"); ("content", JStr "aGVsbG8=");
   ("download_url", JStr "https://raw.githubusercontent.com/o/r/main/hi.txt")].

Definition csv_response : Github.Response :=
  {| Github.resp_json := Raise (Exn ValueError "Expecting value");
     Github.resp_text := "a,b";
     Github.resp_encoding := None |}.

(** A listing of two entries, and pull requests none of which is merged:
    the second carries an empty timestamp. *)
Definition two_entries : list json :=
  [JObj [("name", JStr "README.md"); ("path", JStr "README.md"); ("type", JStr "file");
         ("size", JNum 12)];
   JObj [("name", JStr "src"); ("path", JStr "src"); ("type", JStr "dir")]].

Definition closed_pulls : list json :=
  [JObj [("number", JNum 12); ("merged_at", JNull)];
   JObj [("number", JNum 11); ("merged_at", JStr "")]].

Definition merged_pull : json :=
  JObj [("number", JNum 10); ("title", JStr "Add parser");
        ("merged_at", JStr "2025-06-07T10:00:00Z")].

(** A name a directory takes for an entry: no NUL character and at most
    [NAME_MAX] bytes. *)
Definition valid_name (c : string) : bool :=
  negb (Obsidian.has_nul c) && bool_decide (Obsidian.utf8_len c ≤ Obsidian.NAME_MAX).

(** The longest path the kernel takes, its final NUL included, and the
    paths below it.  The lookup of the model does not refuse a longer
    path; what is stated of a lookup that fails is stated of the paths
    that fit. *)
Definition PATH_MAX : nat := 4096.

Definition path_fits (p : Obsidian.Path) : bool :=
  bool_decide (Obsidian.utf8_len (Obsidian.path_str p) < PATH_MAX).

(** A name of 256 letters and the note of that name. *)
Definition long_name : string := of_chars (replicate 256 "a"%char).
Definition long_note : string := long_name +:+ ".md".

(** The file system [fs'] holds what [fs] holds and, besides, new
    directories only. *)
Definition grows (fs fs' : gmap (list string) Obsidian.node) : Prop :=
  ∀ q, fs' !! q = fs !! q ∨ (fs !! q = None ∧ fs' !! q = Some Obsidian.Dir).

(** The payload of a note that is not found. *)
Definition note_not_found (note_path : string) : payload :=
  Obsidian.error_payload ("Note not found or could not be read: " +:+ note_path).

(** The payload of a created note. *)
Definition note_created (path : string) : payload :=
  json_dumps (JObj [("message", JStr "Note created/updated successfully.");
                    ("path", JStr path)]).

(** The payload of an append. *)
Definition note_appended (note_path : string) : payload :=
  json_dumps (JObj [("message",
    JStr ("Content appended to '" +:+ note_path +:+ "' successfully."))]).

(** The location the lookup of a path starts from: the working directory
    for a relative path, the root for an absolute one. *)
Definition anchor_base (cwd : list string) (a : Obsidian.anchor) : list string :=
  match a with
  | Obsidian.Relative => cwd
  | _ => []
  end.

(** Sample file systems: a directory named like a note, the vault after
    a note was created two folders down, and a note written outside the
    vault. *)
Definition vault_with_dir : gmap (list string) Obsidian.node :=
  <[ ["vault"; "x.md"] := Obsidian.Dir ]> empty_vault.

Definition nested_vault (content : string) : gmap (list string) Obsidian.node :=
  <[ ["vault"; "a"; "b"; "c.md"] := Obsidian.File content ]>
    (<[ ["vault"; "a"; "b"] := Obsidian.Dir ]>
       (<[ ["vault"; "a"] := Obsidian.Dir ]> empty_vault)).

Definition outside_vault (content : string) : gmap (list string) Obsidian.node :=
  <[ ["tmp"; "x.md"] := Obsidian.File content ]>
    (<[ ["tmp"] := Obsidian.Dir ]> empty_vault).

(** * Properties of the remote-repository tools *)

Module GithubFacts.
Import Github.

Lemma py_get_obj kvs k : py_get (JObj kvs) k = Ok (field (JObj kvs) k).
Proof. unfold py_get, py_get_default, field. destruct (assoc k kvs); reflexivity. Qed.






Lemma scan_skips_unmerged pre rest :
  forallb api_pull_request pre = true →
  Forall (λ p, field p "merged_at" = JNull) pre →
  scan_pull_requests (pre ++ rest) = scan_pull_requests rest.
Proof.
  induction pre as [|p pre IH]; simpl; [reflexivity|].
  rewrite andb_true_iff. intros [Hp Hpre] Hnull.
  inversion Hnull as [|? ? Hp0 Hrest]; subst.
  destruct p as [| | | | |kvs]; try discriminate.
  rewrite py_get_obj. cbn [mbind result_bind]. rewrite Hp0. simpl. auto.
Qed.


Section Transport.

Context (net : Network) (b64decode_utf8 : json → result string).



(** No item of the answer is merged: the helper returns [None] and the
    tool the message that none was found, not an error. *)
Lemma no_merged_pr_message
    (token owner repo : string) (resp : Response) (prs : list json) :
  token ≠ "" →
  net_request net "GET" (api_url owner repo pulls_endpoint) = Ok resp →
  resp_json resp = Ok (JArr prs) →
  forallb api_pull_request prs = true →
  Forall (λ p, field p "merged_at" = JNull) prs →
  get_github_last_merged_pr net (Some token) owner repo
    = Ok (json_dumps (JObj [("message",
           JStr ("No recently merged PRs found for " +:+ owner +:+ "/" +:+
                 repo +:+ "."))])).
Proof.
  intros Htok Hreq Hjson Hapi Hnull.
  unfold get_github_last_merged_pr, get_last_merged_pr_details, _make_github_request.
  rewrite (bool_decide_eq_false_2 _ Htok : env_unset (Some token) = false).
  cbn [Github.owner Github.repo].
  fold pulls_endpoint. fold (api_url owner repo pulls_endpoint).
  rewrite Hreq. simpl. rewrite Hjson. simpl.
  rewrite <- (app_nil_r prs), scan_skips_unmerged by assumption. reflexivity.
Qed.

(** A request answered with an HTTP error status: the listing and the
    file fetch return an error payload that names the path. *)
Lemma http_error_names_the_path (token owner repo path : string) (e : exn) :
  token ≠ "" → is_HTTPError e = true →
  (∀ method url, net_request net method url = Raise e) →
  get_repo_contents net (Some token) owner repo path
    = Ok (json_dumps_indent (JObj [("error_message",
           JStr ("Directory or path not found: " +:+ path +:+ " in " +:+
                 owner +:+ "/" +:+ repo))]) 2)
  ∧ get_file_contents net b64decode_utf8 (Some token) owner repo path
    = Ok (json_dumps (JObj [("error_message",
           JStr ("content not found: " +:+ path +:+ " in " +:+
                 owner +:+ "/" +:+ repo))])).
Proof.
  intros Htok He Hnet.
  assert (env_unset (Some token) = false) as Hset.
  { simpl. apply bool_decide_eq_false. assumption. }
  split.
  - unfold get_repo_contents, get_dir_content, _make_github_request.
    rewrite Hset, Hnet. simpl. rewrite He. reflexivity.
  - unfold get_file_contents, get_file_content, _make_github_request.
    rewrite Hset, Hnet. simpl. rewrite He. reflexivity.
Qed.

(** C2.  A transport exception that is no [HTTPError] (a connection
    error, a timeout) leaves [get_repo_contents] and [get_file_contents]
    as it is: the two tools raise it to their caller.  Only
    [get_github_last_merged_pr] turns it into an error payload. *)
Theorem transport_fault_escapes (token owner repo path : string) (e : exn) :
  token ≠ "" → is_HTTPError e = false →
  (∀ method url, net_request net method url = Raise e) →
  get_repo_contents net (Some token) owner repo path = Raise e
  ∧ get_file_contents net b64decode_utf8 (Some token) owner repo path = Raise e
  ∧ get_github_last_merged_pr net (Some token) owner repo
    = Ok (json_dumps (JObj [("error_message",
           JStr ("Failed to retrieve or process last merged PR details: " +:+
                 exn_text e))])).
Proof.
  intros Htok He Hnet.
  assert (env_unset (Some token) = false) as Hset.
  { simpl. apply bool_decide_eq_false. assumption. }
  repeat split.
  - unfold get_repo_contents, get_dir_content, _make_github_request.
    rewrite Hset, Hnet. simpl. rewrite He. reflexivity.
  - unfold get_file_contents, get_file_content, _make_github_request.
    rewrite Hset, Hnet. simpl. rewrite He. reflexivity.
  - unfold get_github_last_merged_pr, get_last_merged_pr_details, _make_github_request.
    rewrite Hset, Hnet. reflexivity.
Qed.

(** C3.  When the path addresses a directory the API answers the
    metadata request with a list; [get_file_contents] then raises an
    [AttributeError], the list having no [get], instead of returning an
    error payload. *)
Theorem directory_answer_raises
    (token owner repo path : string) (resp : Response) (l : list json) :
  token ≠ "" →
  net_request net "GET" (api_url owner repo ("contents/" +:+ path)) = Ok resp →
  resp_json resp = Ok (JArr l) →
  get_file_contents net b64decode_utf8 (Some token) owner repo path
    = Raise (Exn AttributeError "'list' object has no attribute 'get'").
Proof.
  intros Htok Hreq Hjson.
  unfold get_file_contents, get_file_content, _make_github_request.
  cbn [Github.owner Github.repo].
  fold (api_url owner repo ("contents/" +:+ path)).
  rewrite Hreq. simpl. rewrite Hjson.
  rewrite bool_decide_eq_false_2 by assumption. reflexivity.
Qed.

(** C5.  When the metadata carries an inline payload and the encoding
    tag [base64], and decoding the payload raises, [get_file_contents]
    returns the File Content Record of the metadata with the encoding
    [error_decoding_base64] and the content
    [Error: Could not decode content.]; it does not raise. *)
Theorem decode_failure_degrades
    (token owner repo path : string) (resp : Response)
    (file_data : list (string * json)) (e : exn) :
  token ≠ "" →
  net_request net "GET" (api_url owner repo ("contents/" +:+ path)) = Ok resp →
  resp_json resp = Ok (JObj file_data) →
  truthy (field (JObj file_data) "content") = true →
  field (JObj file_data) "encoding" = JStr "base64" →
  b64decode_utf8 (field (JObj file_data) "content") = Raise e →
  get_file_contents net b64decode_utf8 (Some token) owner repo path
    = Ok (json_dumps_indent (JObj
        [("name", field (JObj file_data) "name");
         ("path", field (JObj file_data) "path");
         ("sha", field (JObj file_data) "sha");
         ("size", field (JObj file_data) "size");
         ("encoding", JStr "error_decoding_base64");
         ("content", JStr "Error: Could not decode content.");
         ("html_url", field (JObj file_data) "html_url");
         ("download_url", field (JObj file_data) "download_url")]) 2).
Proof.
  intros Htok Hreq Hjson Hcontent Henc Hdec.
  unfold get_file_contents, get_file_content, _make_github_request.
  cbn [Github.owner Github.repo].
  fold (api_url owner repo ("contents/" +:+ path)).
  rewrite Hreq. simpl try_except at 2. cbn [mbind result_bind]. rewrite Hjson.
  cbn [mbind result_bind]. rewrite !py_get_obj. cbn [mbind result_bind].
  unfold decode_file_data. rewrite Hcontent, Henc, Hdec. simpl.
  rewrite bool_decide_eq_false_2 by assumption. reflexivity.
Qed.

End Transport.



Lemma transport_fault_escapes_witness :
  get_repo_contents (failing (Exn Timeout "Read timed out.")) (Some "token") "o" "r" "src"
    = Raise (Exn Timeout "Read timed out.")
  ∧ get_file_contents (failing (Exn Timeout "Read timed out.")) sample_decoder
      (Some "token") "o" "r" "src/main.py"
    = Raise (Exn Timeout "Read timed out.").
Proof.
  split.
  - refine (proj1 (transport_fault_escapes (failing (Exn Timeout "Read timed out."))
              sample_decoder "token" "o" "r" "src" _ _ _ _));
      [discriminate | reflexivity | reflexivity].
  - refine (proj1 (proj2 (transport_fault_escapes (failing (Exn Timeout "Read timed out."))
              sample_decoder "token" "o" "r" "src/main.py" _ _ _ _)));
      [discriminate | reflexivity | reflexivity].
Defined.

Lemma directory_answer_raises_witness :
  get_file_contents (answering sample_listing) sample_decoder (Some "token") "o" "r" "src"
    = Raise (Exn AttributeError "'list' object has no attribute 'get'").
Proof.
  refine (directory_answer_raises (answering sample_listing) sample_decoder
            "token" "o" "r" "src" (json_response sample_listing) _ _ _ _);
    [discriminate | reflexivity | reflexivity].
Defined.

Lemma decode_failure_degrades_witness :
  get_file_contents (answering sample_file_data) sample_decoder (Some "token") "o" "r"
      "src/main.py"
    = Ok (json_dumps_indent (JObj
        [("name", JStr "main.py");
         ("path", JStr "src/main.py");
         ("sha", JStr "f00");
         ("size", JNum 3);
         ("encoding", JStr "error_decoding_base64");
         ("content", JStr "Error: Could not decode content.");
         ("html_url", JStr "https://github.com/o/r/blob/main/src/main.py");
         ("download_url", JNull)]) 2).
Proof.
  refine (decode_failure_degrades (answering sample_file_data) sample_decoder
            "token" "o" "r" "src/main.py" (json_response sample_file_data)
            sample_file_fields (Exn ValueError "Incorrect padding") _ _ _ _ _ _);
    [discriminate | reflexivity | reflexivity | reflexivity | reflexivity | reflexivity].
Defined.

End GithubFacts.

(** * Properties of the local-vault tools *)

Module VaultFacts.
Import Obsidian.

(** ** Strings *)

Lemma of_chars_chars s : of_chars (chars s) = s.
Proof. induction s as [|a s IH]; simpl; [reflexivity|congruence]. Qed.

Lemma chars_of_chars l : chars (of_chars l) = l.
Proof. induction l as [|a l IH]; simpl; congruence. Qed.

Lemma append_cons a s t : String a s +:+ t = String a (s +:+ t).
Proof. reflexivity. Qed.

Lemma chars_append s t : chars (s +:+ t) = chars s ++ chars t.
Proof.
  induction s as [|a s IH]; [reflexivity|].
  rewrite append_cons. simpl. by rewrite IH.
Qed.

Lemma chars_inj s t : chars s = chars t → s = t.
Proof. intros H. rewrite <- (of_chars_chars s), <- (of_chars_chars t). congruence. Qed.

Lemma len_chars s : len s = List.length (chars s).
Proof. unfold len. induction s as [|a s IH]; simpl; [reflexivity|]. by rewrite IH. Qed.

Lemma append_assoc s t u : (s +:+ t) +:+ u = s +:+ t +:+ u.
Proof.
  induction s as [|a s IH]; [reflexivity|].
  rewrite !append_cons. by rewrite IH.
Qed.

Lemma append_empty_r s : s +:+ "" = s.
Proof.
  induction s as [|a s IH]; [reflexivity|].
  rewrite append_cons. by rewrite IH.
Qed.

Lemma endswith_LF s : endswith s (String LF "") = bool_decide (last (chars s) = Some LF).
Proof.
  unfold endswith. apply bool_decide_ext. symmetry. apply last_Some.
Qed.

(** ** Universal newlines *)

Lemma universal_newlines_no_CR l :
  forallb (λ a, negb (bool_decide (a = CR))) l = true →
  universal_newlines_from false l = l.
Proof.
  induction l as [|a l IH]; simpl; [reflexivity|].
  rewrite andb_true_iff. intros [Ha Hl].
  apply negb_true_iff in Ha. rewrite Ha. rewrite andb_false_r.
  f_equal. auto.
Qed.

Lemma universal_newlines_id s : no_CR s = true → universal_newlines s = s.
Proof.
  intros H. unfold universal_newlines.
  rewrite universal_newlines_no_CR by exact H. apply of_chars_chars.
Qed.

Lemma universal_newlines_nonempty l :
  l ≠ [] → universal_newlines_from false l ≠ [].
Proof.
  destruct l as [|a l]; [congruence|]. intros _. simpl.
  destruct (bool_decide (a = CR)); [discriminate|].
  rewrite andb_false_r. discriminate.
Qed.

(** The translated text, after what came before it, ends with LF exactly
    when the text ends with LF or CR. *)
Lemma universal_newlines_last l : ∀ (after_cr : bool) (before : list ascii),
  l ≠ [] →
  (after_cr = true → last before = Some LF) →
  bool_decide (last (before ++ universal_newlines_from after_cr l) = Some LF)
  = ends_a_line_chars l.
Proof.
  induction l as [|a l IH]; intros after_cr before Hne Hbefore; [congruence|].
  destruct l as [|b l].
  - (* the last character *)
    simpl. unfold ends_a_line_chars. simpl.
    destruct (bool_decide (a = CR)) eqn:Ecr.
    + rewrite last_snoc. rewrite orb_true_r. apply bool_decide_eq_true_2. reflexivity.
    + rewrite orb_false_r. destruct (bool_decide (a = LF)) eqn:Elf; simpl.
      * destruct after_cr.
        -- rewrite app_nil_r, Hbefore by reflexivity. apply bool_decide_eq_true_2. reflexivity.
        -- rewrite last_snoc. apply bool_decide_eq_true in Elf. subst a.
           apply bool_decide_eq_true_2. reflexivity.
      * rewrite last_snoc. apply bool_decide_eq_false in Elf.
        apply bool_decide_eq_false_2. congruence.
  - (* a character before the last *)
    assert (Hends : ends_a_line_chars (a :: b :: l) = ends_a_line_chars (b :: l)) by reflexivity.
    rewrite Hends. clear Hends.
    cbn [universal_newlines_from].
    destruct (bool_decide (a = CR)) eqn:Ecr.
    + rewrite (cons_middle LF), app_assoc. apply IH; [discriminate|].
      intros _. apply last_snoc.
    + destruct (bool_decide (a = LF) && after_cr) eqn:E.
      * apply IH; [discriminate|]. discriminate.
      * rewrite (cons_middle a), app_assoc. apply IH; [discriminate|]. discriminate.
Qed.

Lemma universal_newlines_endswith s :
  s ≠ "" → endswith (universal_newlines s) (String LF "") = ends_a_line s.
Proof.
  intros Hne. rewrite endswith_LF. unfold universal_newlines. rewrite chars_of_chars.
  change (universal_newlines_from false (chars s))
    with ([] ++ universal_newlines_from false (chars s)).
  rewrite universal_newlines_last; [reflexivity| |discriminate].
  intros H. apply Hne. apply chars_inj. exact H.
Qed.

Lemma universal_newlines_empty s : bool_decide (universal_newlines s = "") = bool_decide (s = "").
Proof.
  apply bool_decide_ext. unfold universal_newlines. split.
  - intros H. destruct (decide (chars s = [])) as [E|E].
    + apply chars_inj. exact E.
    + apply universal_newlines_nonempty in E.
      destruct (universal_newlines_from false (chars s)); [congruence|discriminate].
  - intros ->. reflexivity.
Qed.

(** The test of [append_note] on the text it reads. *)
Lemma newline_test s :
  negb (bool_decide (universal_newlines s = "")) &&
  negb (endswith (universal_newlines s) (String LF ""))
  = negb (bool_decide (s = "")) && negb (ends_a_line s).
Proof.
  rewrite universal_newlines_empty.
  destruct (bool_decide (s = "")) eqn:E; [reflexivity|].
  apply bool_decide_eq_false in E. rewrite universal_newlines_endswith by exact E.
  reflexivity.
Qed.



(** ** Path lookup *)

Lemma node_at_insert_file fs q cur c :
  node_at fs cur = Some Dir → node_at fs q ≠ Some Dir →
  node_at (<[q := File c]> fs) cur = Some Dir.
Proof.
  intros Hcur Hq. destruct cur as [|x cur]; [reflexivity|].
  simpl in *. rewrite lookup_insert_ne; [exact Hcur|].
  intros ->. simpl in Hq. congruence.
Qed.

(** One step of the lookup. *)
Lemma walk_cons fs cur c rest :
  walk fs cur (c :: rest)
  = if existsb has_nul (c :: rest) then inl NUL_CHARACTER
    else match node_at fs cur with
         | Some Dir =>
             if bool_decide (NAME_MAX < utf8_len c) then inl ENAMETOOLONG
             else walk fs (step cur c) rest
         | Some (File _) => inl ENOTDIR
         | None => inl ENOENT
         end.
Proof. reflexivity. Qed.

Lemma walk_cons_inv fs cur c rest q :
  walk fs cur (c :: rest) = inr q →
  existsb has_nul (c :: rest) = false ∧ node_at fs cur = Some Dir
  ∧ (utf8_len c ≤ NAME_MAX)%nat ∧ walk fs (step cur c) rest = inr q.
Proof.
  rewrite walk_cons. destruct (existsb has_nul (c :: rest)); [discriminate|].
  destruct (node_at fs cur) as [[|s]|]; try discriminate.
  case_bool_decide; [discriminate|]. intros Hrest. repeat split; [lia|exact Hrest].
Qed.

Lemma valid_name_inv c :
  valid_name c = true → has_nul c = false ∧ (utf8_len c ≤ NAME_MAX)%nat.
Proof.
  unfold valid_name. rewrite andb_true_iff, negb_true_iff.
  intros [H1 H2]. split; [exact H1|]. by apply bool_decide_eq_true in H2.
Qed.

Lemma valid_names_no_nul l : forallb valid_name l = true → existsb has_nul l = false.
Proof.
  induction l as [|c l IH]; [reflexivity|]. simpl. rewrite andb_true_iff.
  intros [Hc Hl]. apply valid_name_inv in Hc as [-> _]. auto.
Qed.

Lemma walk_cons_dir fs cur c rest :
  forallb valid_name (c :: rest) = true → node_at fs cur = Some Dir →
  walk fs cur (c :: rest) = walk fs (step cur c) rest.
Proof.
  intros Hvalid Hcur. rewrite walk_cons, (valid_names_no_nul _ Hvalid), Hcur.
  simpl in Hvalid. apply andb_true_iff in Hvalid as [Hc _].
  apply valid_name_inv in Hc as [_ Hc]. rewrite bool_decide_eq_false_2 by lia.
  reflexivity.
Qed.

(** A successful lookup gives the normalized location. *)
Lemma walk_foldl fs comps : ∀ cur q,
  walk fs cur comps = inr q → foldl step cur comps = q.
Proof.
  induction comps as [|c comps IH]; intros cur q.
  - simpl. congruence.
  - intros H. apply walk_cons_inv in H as (_ & _ & _ & H). simpl. by apply IH.
Qed.

Lemma walk_normalize fs comps q :
  walk fs [] comps = inr q → normalize comps = q.
Proof. apply walk_foldl. Qed.

(** Writing a file at the location a lookup reaches does not disturb the
    lookup: the directories it went through are other entries. *)
Lemma walk_insert_file fs c comps : ∀ cur q,
  walk fs cur comps = inr q → node_at fs q ≠ Some Dir →
  walk (<[q := File c]> fs) cur comps = inr q.
Proof.
  induction comps as [|x comps IH]; intros cur q; [done|].
  intros Hwalk Hq. pose proof Hwalk as Hinv.
  apply walk_cons_inv in Hinv as (Hnul & Hcur & Hlen & Hrest).
  rewrite walk_cons, Hnul, (node_at_insert_file fs q cur c Hcur Hq).
  rewrite bool_decide_eq_false_2 by lia. by apply IH.
Qed.

(** The names of a location reached by a lookup are names a directory
    takes. *)
Lemma valid_names_removelast l :
  forallb valid_name l = true → forallb valid_name (removelast l) = true.
Proof.
  intros H. destruct (decide (l = [])) as [->|Hne]; [done|].
  destruct (exists_last Hne) as (l' & x & ->).
  rewrite removelast_last. rewrite forallb_app in H. by apply andb_true_iff in H as [H _].
Qed.

Lemma valid_names_step cur c :
  forallb valid_name cur = true → valid_name c = true →
  forallb valid_name (step cur c) = true.
Proof.
  intros Hcur Hc. unfold step. case_bool_decide.
  - by apply valid_names_removelast.
  - rewrite forallb_app, Hcur. simpl. by rewrite Hc.
Qed.

Lemma valid_names_foldl comps : ∀ cur,
  forallb valid_name cur = true → forallb valid_name comps = true →
  forallb valid_name (foldl step cur comps) = true.
Proof.
  induction comps as [|c comps IH]; intros cur Hcur Hcomps; [exact Hcur|].
  simpl in *. apply andb_true_iff in Hcomps as [Hc Hcomps].
  apply IH; [by apply valid_names_step|exact Hcomps].
Qed.

Lemma walk_valid fs comps : ∀ cur q,
  walk fs cur comps = inr q → forallb valid_name cur = true →
  forallb valid_name q = true.
Proof.
  induction comps as [|c comps IH]; intros cur q.
  - simpl. by intros [= <-].
  - intros H Hcur. apply walk_cons_inv in H as (Hnul & _ & Hlen & H).
    apply (IH _ _ H). apply valid_names_step; [exact Hcur|].
    unfold valid_name. simpl in Hnul. apply orb_false_iff in Hnul as [-> _].
    simpl. by apply bool_decide_eq_true_2.
Qed.

(** The lookup of names a directory takes is refused for a missing
    entry only. *)
Lemma walk_valid_names fs comps : ∀ cur,
  forallb valid_name comps = true →
  walk fs cur comps ≠ inl ENAMETOOLONG ∧ walk fs cur comps ≠ inl NUL_CHARACTER.
Proof.
  induction comps as [|c comps IH]; intros cur Hvalid; [done|].
  rewrite walk_cons, (valid_names_no_nul _ Hvalid).
  simpl in Hvalid. apply andb_true_iff in Hvalid as [Hc Hvalid].
  apply valid_name_inv in Hc as [_ Hc].
  destruct (node_at fs cur) as [[|s]|]; [|done..].
  rewrite bool_decide_eq_false_2 by lia. by apply IH.
Qed.

Lemma dirs_above_removelast fs q : dirs_above fs q → dirs_above fs (removelast q).
Proof.
  intros H k Hk. destruct (decide (q = [])) as [->|Hne]; [simpl in Hk; lia|].
  destruct (exists_last Hne) as (q' & x & ->).
  rewrite removelast_last in *. rewrite <- (H k).
  - by rewrite take_app_le by lia.
  - rewrite length_app. simpl. lia.
Qed.

Lemma plain_removelast q : plain q → plain (removelast q).
Proof.
  intros H. destruct (decide (q = [])) as [->|Hne]; [done|].
  destruct (exists_last Hne) as (q' & x & ->).
  rewrite removelast_last. by apply Forall_app in H as [H _].
Qed.

Lemma dirs_above_snoc fs q c :
  dirs_above fs q → node_at fs q = Some Dir → dirs_above fs (q ++ [c]).
Proof.
  intros H Hq k Hk. rewrite length_app in Hk. simpl in Hk.
  destruct (decide (k = List.length q)) as [->|Hne].
  - by rewrite take_app_length.
  - rewrite take_app_le by lia. apply H. lia.
Qed.

Lemma walk_dirs_above fs comps : ∀ cur q,
  walk fs cur comps = inr q → dirs_above fs cur → plain cur →
  dirs_above fs q ∧ plain q.
Proof.
  induction comps as [|c comps IH]; intros cur q.
  - simpl. intros [= <-]. auto.
  - intros Hwalk Habove Hplain.
    apply walk_cons_inv in Hwalk as (_ & Hcur & _ & Hwalk).
    apply (IH _ _ Hwalk); unfold step; case_bool_decide.
    + by apply dirs_above_removelast.
    + by apply dirs_above_snoc.
    + by apply plain_removelast.
    + apply Forall_app. split; [done|]. by constructor.
Qed.

(** A normalized location whose proper prefixes are directories is
    reached by the lookup of its own components, when a directory takes
    their names. *)
Lemma walk_plain fs rest : ∀ cur,
  plain rest → forallb valid_name rest = true →
  (∀ k, (k < List.length rest)%nat → node_at fs (cur ++ take k rest) = Some Dir) →
  walk fs cur rest = inr (cur ++ rest).
Proof.
  induction rest as [|c rest IH]; intros cur Hplain Hvalid Hdirs.
  - simpl. by rewrite app_nil_r.
  - pose proof (Hdirs 0%nat ltac:(simpl; lia)) as H0. simpl in H0.
    rewrite app_nil_r in H0. rewrite (walk_cons_dir _ _ _ _ Hvalid H0).
    inversion Hplain as [|? ? Hc Hrest]; subst.
    simpl in Hvalid. apply andb_true_iff in Hvalid as [_ Hvalid].
    unfold step. rewrite bool_decide_eq_false_2 by done.
    rewrite IH; [by rewrite <- app_assoc| done | done |].
    intros k Hk. rewrite <- app_assoc. simpl.
    apply (Hdirs (S k)). simpl. lia.
Qed.

(** The lookup of a path in two parts. *)
Lemma walk_app_inv fs l1 : ∀ l2 cur q,
  walk fs cur (l1 ++ l2) = inr q →
  ∃ q', walk fs cur l1 = inr q' ∧ walk fs q' l2 = inr q.
Proof.
  induction l1 as [|c l1 IH]; intros l2 cur q H; [by exists cur|].
  rewrite <- app_comm_cons in H. pose proof H as Hinv.
  apply walk_cons_inv in Hinv as (Hnul & Hcur & Hlen & Hrest).
  destruct (IH _ _ _ Hrest) as (q' & H1 & H2). exists q'. split; [|exact H2].
  rewrite walk_cons, Hcur. rewrite bool_decide_eq_false_2 by lia.
  simpl in Hnul. rewrite existsb_app in Hnul.
  apply orb_false_iff in Hnul as [Hc Hnul]. apply orb_false_iff in Hnul as [Hl1 _].
  simpl. by rewrite Hc, Hl1.
Qed.

Lemma walk_app fs l1 : ∀ l2 cur q',
  walk fs cur l1 = inr q' → existsb has_nul l2 = false →
  walk fs cur (l1 ++ l2) = walk fs q' l2.
Proof.
  induction l1 as [|c l1 IH]; intros l2 cur q' H Hl2.
  - simpl in *. by injection H as ->.
  - pose proof H as Hinv.
    apply walk_cons_inv in Hinv as (Hnul & Hcur & Hlen & Hrest).
    rewrite <- app_comm_cons, walk_cons, Hcur.
    rewrite bool_decide_eq_false_2 by lia.
    simpl in Hnul. apply orb_false_iff in Hnul as [Hc Hl1].
    simpl. rewrite existsb_app, Hc, Hl1, Hl2. simpl. by apply IH.
Qed.

Lemma walk_resolved fs comps q :
  walk fs [] comps = inr q → walk fs [] q = inr q.
Proof.
  intros Hwalk.
  destruct (walk_dirs_above fs comps [] q Hwalk) as [Habove Hplain].
  - intros k Hk. simpl in Hk. lia.
  - constructor.
  - apply (walk_plain fs q []); [done| |].
    + by apply (walk_valid fs comps [] q Hwalk).
    + intros k Hk. by apply Habove.
Qed.

Lemma foldl_step_plain l : ∀ acc, plain l → foldl step acc l = acc ++ l.
Proof.
  induction l as [|c l IH]; intros acc Hplain; simpl; [by rewrite app_nil_r|].
  inversion Hplain as [|? ? Hc Hl]; subst.
  unfold step at 2. rewrite bool_decide_eq_false_2 by done.
  rewrite IH by done. by rewrite <- app_assoc.
Qed.

(** From a vault at an absolute location, [../x.md] resolves to a
    sibling of the vault. *)
Lemma resolve_parent_segment cwd vault_parts :
  plain vault_parts →
  resolve cwd (joinpath (MkPath Root vault_parts) "../x.md")
  = MkPath Root (removelast vault_parts ++ ["x.md"]).
Proof.
  intros Hplain.
  assert (Hparse : parse_path "../x.md" = MkPath Relative [".."; "x.md"])
    by (vm_compute; reflexivity).
  unfold resolve, joinpath. rewrite Hparse. unfold abs_parts, normalize. simpl.
  rewrite foldl_app, (foldl_step_plain vault_parts []) by done. reflexivity.
Qed.

Lemma sibling_not_below (l : list string) (x : string) :
  l ≠ [] → last l ≠ Some x → ¬ l `prefix_of` removelast l ++ [x].
Proof.
  intros Hne Hlast [k Hk].
  destruct (exists_last Hne) as (init & y & ->).
  rewrite removelast_last in Hk. rewrite last_snoc in Hlast.
  assert (k = []) as ->.
  { apply (f_equal List.length) in Hk. rewrite !length_app in Hk. simpl in Hk.
    destruct k; [done|simpl in Hk; lia]. }
  rewrite app_nil_r in Hk. apply app_inv_head in Hk. congruence.
Qed.

(** ** File names *)

Lemma rfind_dot_md pre : ∀ i,
  rfind_dot_from i (pre ++ chars ".md") = Some (i + List.length pre)%nat.
Proof.
  induction pre as [|a pre IH]; intros i.
  - simpl. f_equal. lia.
  - simpl. rewrite IH. f_equal. lia.
Qed.

Lemma name_suffix_md c : endswith c ".md" = true → c ≠ ".md" → name_suffix c = ".md".
Proof.
  unfold endswith. intros H Hne. apply bool_decide_eq_true in H as [pre Hpre].
  assert (pre ≠ []) as Hpre_ne.
  { intros ->. apply Hne. apply chars_inj. exact Hpre. }
  unfold name_suffix, rfind_dot. rewrite Hpre, rfind_dot_md. simpl.
  assert (len c = List.length pre + 3)%nat as Hlen.
  { rewrite len_chars, Hpre, length_app. reflexivity. }
  rewrite bool_decide_eq_true_2.
  - unfold slice_from. rewrite Hpre. by rewrite drop_app_length.
  - destruct pre; [done|]. simpl in *. lia.
Qed.

Lemma with_md_endswith p : endswith (with_md p) ".md" = true.
Proof.
  unfold with_md. destruct (endswith p ".md") eqn:E; [exact E|].
  unfold endswith. apply bool_decide_eq_true. exists (chars p). apply chars_append.
Qed.

Lemma split_slash_last s :
  endswith s ".md" = true →
  ∃ c, last (split_slash s) = Some c ∧ endswith c ".md" = true.
Proof.
  unfold endswith. intros H. apply bool_decide_eq_true in H as [pre Hpre].
  revert s Hpre. induction pre as [|a pre IH]; intros s Hpre.
  - apply chars_inj in Hpre. subst s. exists ".md". split; reflexivity.
  - destruct s as [|a' s]; [discriminate|]. simpl in Hpre.
    injection Hpre as -> Hpre. destruct (IH s Hpre) as (c & Hlast & Hc).
    simpl. destruct (bool_decide (a = "/"%char)).
    + exists c. split; [|exact Hc]. destruct (split_slash s); [discriminate|exact Hlast].
    + destruct (split_slash s) as [|x xs]; [discriminate|].
      destruct xs as [|y ys].
      * simpl in Hlast. injection Hlast as ->. exists (String a c). split; [reflexivity|].
        apply bool_decide_eq_true. apply bool_decide_eq_true in Hc as [k Hk].
        exists (a :: k). simpl. by rewrite Hk.
      * exists c. split; [exact Hlast|exact Hc].
Qed.

Lemma endswith_md_name c : endswith c ".md" = true → c ≠ "" ∧ c ≠ "." ∧ c ≠ "..".
Proof.
  unfold endswith. intros H. apply bool_decide_eq_true in H as [pre Hpre].
  assert (3 ≤ len c)%nat.
  { rewrite len_chars, Hpre, length_app. simpl. lia. }
  repeat split; intros ->; simpl in *; lia.
Qed.

Lemma endswith_drop_slash s r :
  s = String "/" r → endswith s ".md" = true → endswith r ".md" = true.
Proof.
  unfold endswith. intros -> H. apply bool_decide_eq_true in H as [pre Hpre].
  apply bool_decide_eq_true. destruct pre as [|a pre]; [discriminate|].
  exists pre. simpl in Hpre. by injection Hpre.
Qed.

Lemma parse_path_last s :
  endswith s ".md" = true →
  ∃ c, last (parts (parse_path s)) = Some c ∧ endswith c ".md" = true.
Proof.
  intros H.
  assert (∃ a rest, splitroot s = (a, rest) ∧ endswith rest ".md" = true)
    as (a & rest & Hroot & Hrest).
  { unfold splitroot.
    destruct s as [|c1 s1]; [by eauto|].
    destruct (decide (c1 = "/"%char)) as [->|N1].
    2:{ exists Relative, (String c1 s1). split; [|done].
        destruct c1 as [[] [] [] [] [] [] [] []]; try reflexivity. by destruct N1. }
    pose proof (endswith_drop_slash _ _ eq_refl H) as H1.
    destruct s1 as [|c2 s2]; [by eauto|].
    destruct (decide (c2 = "/"%char)) as [->|N2].
    2:{ exists Root, (String c2 s2). split; [|done].
        destruct c2 as [[] [] [] [] [] [] [] []]; try reflexivity. by destruct N2. }
    pose proof (endswith_drop_slash _ _ eq_refl H1) as H2.
    destruct s2 as [|c3 s3]; [by eauto|].
    destruct (decide (c3 = "/"%char)) as [->|N3].
    2:{ exists Root2, (String c3 s3). split; [|done].
        destruct c3 as [[] [] [] [] [] [] [] []]; try reflexivity. by destruct N3. }
    exists Root, (String "/" (String "/" s3)). split; [reflexivity|exact H1]. }
  destruct (split_slash_last rest Hrest) as (c & Hlast & Hc).
  exists c. split; [|exact Hc].
  unfold parse_path. rewrite Hroot. simpl.
  apply last_Some in Hlast as [l' ->].
  rewrite filter_app. rewrite filter_cons_True.
  - by rewrite filter_nil, last_snoc.
  - destruct (endswith_md_name c Hc) as (? & ? & _). done.
Qed.

Lemma joinpath_last vault s :
  endswith s ".md" = true →
  ∃ c, last (parts (joinpath vault s)) = Some c ∧ endswith c ".md" = true.
Proof.
  intros H. destruct (parse_path_last s H) as (c & Hlast & Hc).
  exists c. split; [|exact Hc]. unfold joinpath.
  destruct (path_anchor (parse_path s)); try exact Hlast.
  simpl. apply last_Some in Hlast as [l' ->]. by rewrite app_assoc, last_snoc.
Qed.

(** ** The file system and the monad *)

Section Process.

Context (cwd : list string).

Lemma run_bind {A B} (m : io A) (f : A → io B) (fs : fstree) :
  (m ≫= f) fs = match m fs with
                | (Ok a, fs') => f a fs'
                | (Raise e, fs') => (Raise e, fs')
                end.
Proof. reflexivity. Qed.

Lemma run_ret {A} (a : A) (fs : fstree) : (mret a : io A) fs = (Ok a, fs).
Proof. reflexivity. Qed.

Ltac run :=
  repeat progress
    (rewrite ?run_bind, ?run_ret; unfold path_truthy, load_VAULT_PATH;
     cbn [negb andb default from_option id]; cbv beta iota).

(** [is_file] on a path whose lookup succeeds, on a path whose lookup
    is not refused for the length of a name, and on one whose lookup
    is. *)
Lemma is_file_at p fs q :
  walk fs [] (abs_parts cwd p) = inr q →
  is_file cwd p fs = (Ok (regular (node_at fs q)), fs).
Proof.
  intros H. unfold is_file, try_io, os_stat. rewrite run_bind, H.
  destruct (node_at fs q) as [[|s]|]; reflexivity.
Qed.

Lemma is_file_entry p fs :
  walk fs [] (abs_parts cwd p) ≠ inl ENAMETOOLONG →
  is_file cwd p fs = (Ok (regular (entry cwd fs p)), fs).
Proof.
  intros H. unfold entry.
  destruct (walk fs [] (abs_parts cwd p)) as [e|q] eqn:Hwalk.
  - unfold is_file, try_io, os_stat. rewrite run_bind, Hwalk.
    destruct e; try reflexivity. congruence.
  - by apply is_file_at.
Qed.

Lemma is_file_refused p fs :
  walk fs [] (abs_parts cwd p) = inl ENAMETOOLONG →
  is_file cwd p fs = (Raise (os_error ENAMETOOLONG p), fs).
Proof. intros H. unfold is_file, try_io, os_stat. by rewrite run_bind, H. Qed.

(** C1.  When the environment value [VAULT_PATH] is absent or empty the
    module never binds the name [VAULT_PATH], and each of the three tools
    raises a [NameError] on its first line; none returns the
    configuration-error payload.  The file system is not touched. *)
Theorem unbound_vault_raises (value : option string) (path text : string) (fs : fstree) :
  env_unset value = true →
  get_obsidian_note cwd (module_init value) path fs = (Raise unbound_VAULT_PATH, fs)
  ∧ create_obsidian_note cwd (module_init value) path text fs = (Raise unbound_VAULT_PATH, fs)
  ∧ append_obsidian_note cwd (module_init value) path text fs = (Raise unbound_VAULT_PATH, fs).
Proof.
  intros Hunset.
  assert (module_init value = None) as ->.
  { unfold module_init. destruct value; [|reflexivity]. by rewrite Hunset. }
  repeat split.
Qed.

Lemma append_note_rejects full_path text ensure fs :
  regular (entry cwd fs full_path) = false ∨ lower (suffix full_path) ≠ ".md" →
  append_note cwd full_path text ensure fs = (Ok false, fs).
Proof.
  intros H. unfold append_note, try_io. run.
  destruct (decide (walk fs [] (abs_parts cwd full_path) = inl ENAMETOOLONG)) as [E|E].
  - by rewrite (is_file_refused _ _ E).
  - rewrite (is_file_entry _ _ E).
    destruct H as [-> | H]; [reflexivity|].
    rewrite (bool_decide_eq_false_2 _ H), andb_false_r. reflexivity.
Qed.

(** The lookup of a resolved path whose components, before resolution,
    are names a directory takes is not refused for a name. *)
Lemma resolved_lookup_valid p fs :
  forallb valid_name (abs_parts cwd p) = true →
  walk fs [] (abs_parts cwd (resolve cwd p)) ≠ inl ENAMETOOLONG.
Proof.
  intros H. apply walk_valid_names. unfold resolve, abs_parts at 1. simpl.
  by apply valid_names_foldl.
Qed.

(** C8.  The target is made of names a directory takes and fits the
    limit on a path, in a tree the process may search.  When its resolved
    form names no entry or names a directory, [append_obsidian_note]
    returns the payload of a note that is not found; when it names a
    regular file whose suffix is not [.md] whatever the case of its
    letters, the tool returns the payload of a failed append, which is
    another one.  In both cases [append_note] returns [False] and the
    file system is left as it was: nothing is created. *)
Theorem append_needs_markdown_file (vault : Path) (note_path text : string) (fs : fstree) :
  let full_path := resolve cwd (joinpath vault note_path) in
  forallb valid_name (abs_parts cwd (joinpath vault note_path)) = true →
  path_fits full_path = true →
  entry cwd fs full_path = None ∨ entry cwd fs full_path = Some Dir ∨
    lower (suffix full_path) ≠ ".md" →
  (∀ ensure_newline, append_note cwd full_path text ensure_newline fs = (Ok false, fs))
  ∧ append_obsidian_note cwd (Some vault) note_path text fs
    = (Ok (error_payload
             ((if regular (entry cwd fs full_path)
               then "Failed to append content to note: "
               else "Note not found or is not a file (cannot append): ") +:+ note_path)),
       fs).
Proof.
  intros full_path Hnames _ H.
  assert (H' : regular (entry cwd fs full_path) = false ∨ lower (suffix full_path) ≠ ".md").
  { destruct H as [-> | [-> | H]]; auto. }
  split; [intros; by apply append_note_rejects|].
  unfold append_obsidian_note, get_path. run.
  fold full_path. rewrite is_file_entry by (by apply resolved_lookup_valid).
  destruct (regular (entry cwd fs full_path)) eqn:E; run; [|reflexivity].
  rewrite append_note_rejects; [reflexivity|].
  destruct H' as [?|?]; [discriminate|by right].
Qed.

Lemma append_note_appends full_path text fs q s :
  walk fs [] (abs_parts cwd full_path) = inr q →
  node_at fs q = Some (File s) →
  lower (suffix full_path) = ".md" →
  append_note cwd full_path text true fs
    = (Ok true, <[q := File (s +:+ separator s +:+ text)]> fs).
Proof.
  intros Hwalk Hnode Hmd.
  assert (Hq : fs !! q = Some (File s)).
  { destruct q; [discriminate|exact Hnode]. }
  unfold append_note, try_io. run.
  rewrite (is_file_at _ _ _ Hwalk), Hnode. cbn [regular].
  rewrite (bool_decide_eq_true_2 _ Hmd). run.
  unfold open_append. rewrite Hwalk, Hnode. run.
  unfold read_text. rewrite Hwalk, Hnode. rewrite newline_test.
  unfold separator.
  destruct (negb (bool_decide (s = "")) && negb (ends_a_line s)).
  - unfold append_write at 1. rewrite Hq. run.
    unfold append_write. rewrite lookup_insert_eq.
    rewrite insert_insert_eq, append_assoc. reflexivity.
  - run. unfold append_write. rewrite Hq. reflexivity.
Qed.



(** ** Creating and reading *)

Lemma read_note_reads full_path fs s :
  suffix full_path = ".md" →
  entry cwd fs full_path = Some (File s) →
  read_note cwd full_path fs = (Ok (Some (universal_newlines s)), fs).
Proof.
  intros Hmd Hentry. unfold read_note. rewrite (bool_decide_eq_true_2 _ Hmd).
  run. unfold entry in Hentry.
  destruct (walk fs [] (abs_parts cwd full_path)) as [e|q] eqn:Hwalk; [discriminate|].
  rewrite (is_file_at _ _ _ Hwalk), Hentry. cbn [regular]. run.
  unfold read_text. rewrite Hwalk, Hentry. reflexivity.
Qed.


Lemma create_note_inv vault p c fs full_path fs' :
  create_note cwd (Some vault) p c fs = (Ok (Some full_path), fs') →
  full_path = joinpath vault (with_md p)
  ∧ ∃ fs1 q,
      mkdir_parents cwd (parent full_path) fs = (Ok (), fs1)
      ∧ walk fs1 [] (abs_parts cwd full_path) = inr q
      ∧ node_at fs1 q ≠ Some Dir
      ∧ fs' = <[q := File c]> fs1.
Proof.
  unfold create_note. run.
  assert ((if negb (endswith p ".md") then p +:+ ".md" else p) = with_md p) as ->.
  { unfold with_md. by destruct (endswith p ".md"). }
  unfold try_io. rewrite run_bind.
  destruct (mkdir_parents cwd (parent (joinpath vault (with_md p))) fs)
    as [[[]|e] fs1] eqn:Hmk; [|rewrite run_ret; discriminate].
  rewrite run_bind. unfold write_text.
  destruct (walk fs1 [] (abs_parts cwd (joinpath vault (with_md p)))) as [e|q] eqn:Hwalk;
    [rewrite run_ret; discriminate|].
  destruct (node_at fs1 q) as [[|s]|] eqn:Hnode;
    try (rewrite run_ret; discriminate);
    rewrite run_ret; intros [= <- <-]; (split; [reflexivity|]);
    exists fs1, q; rewrite Hnode; repeat split; try done.
Qed.

Lemma is_dir_at p fs q :
  walk fs [] (abs_parts cwd p) = inr q →
  is_dir cwd p fs
  = (Ok (match node_at fs q with Some Dir => true | _ => false end), fs).
Proof.
  intros H. unfold is_dir, try_io, os_stat. rewrite run_bind, H.
  destruct (node_at fs q) as [[|s]|]; reflexivity.
Qed.

(** Nothing is made when the directory exists. *)
Lemma mkdir_parents_existing p fs :
  entry cwd fs p = Some Dir → mkdir_parents cwd p fs = (Ok (), fs).
Proof.
  intros Hentry. unfold mkdir_parents.
  assert (Hmk : ∀ k, try_io (os_mkdir cwd p) is_OSError k fs
                     = k (Exn FileExistsError
                            ("[Errno 17] File exists: '" +:+ path_str p +:+ "'")) fs).
  { intros k. unfold try_io, os_mkdir. unfold entry in Hentry.
    destruct (walk fs [] (abs_parts cwd p)) as [e|q]; [discriminate|].
    by rewrite Hentry. }
  assert (Hdir : is_dir cwd p fs = (Ok true, fs)).
  { unfold entry in Hentry.
    destruct (walk fs [] (abs_parts cwd p)) as [e|q] eqn:Hwalk; [discriminate|].
    by rewrite (is_dir_at _ _ _ Hwalk), Hentry. }
  destruct p as [a ps]. simpl path_anchor. simpl parts.
  destruct (rev ps) as [|x rparent] eqn:Hrev;
    cbn [mkdir_parents_rev]; rewrite <- Hrev, rev_involutive, Hmk;
    simpl; rewrite run_bind, Hdir; reflexivity.
Qed.

(** A note named by one component that a directory takes is created in
    an existing vault unless a directory has its name. *)
Lemma create_note_succeeds vault p c fs q n :
  walk fs [] (abs_parts cwd vault) = inr q →
  node_at fs q = Some Dir →
  parse_path (with_md p) = MkPath Relative [n] →
  valid_name n = true →
  node_at fs (q ++ [n]) ≠ Some Dir →
  create_note cwd (Some vault) p c fs
    = (Ok (Some (joinpath vault (with_md p))), <[q ++ [n] := File c]> fs).
Proof.
  intros Hwalk Hdir Hparse Hvalid Hfree.
  assert (Hn : n ≠ "..").
  { destruct (parse_path_last (with_md p) (with_md_endswith p)) as (m & Hlast & Hm).
    rewrite Hparse in Hlast. injection Hlast as ->.
    by destruct (endswith_md_name m Hm) as (_ & _ & ?). }
  unfold create_note. run.
  assert ((if negb (endswith p ".md") then p +:+ ".md" else p) = with_md p) as ->.
  { unfold with_md. by destruct (endswith p ".md"). }
  assert (Hjoin : joinpath vault (with_md p) = MkPath (path_anchor vault) (parts vault ++ [n])).
  { unfold joinpath. by rewrite Hparse. }
  rewrite Hjoin.
  assert (Hparent : parent (MkPath (path_anchor vault) (parts vault ++ [n])) = vault).
  { unfold parent. simpl. rewrite removelast_last. by destruct vault. }
  assert (Habs : abs_parts cwd (MkPath (path_anchor vault) (parts vault ++ [n]))
                 = abs_parts cwd vault ++ [n]).
  { unfold abs_parts. simpl. destruct (path_anchor vault); by rewrite ?app_assoc. }
  assert (Hvalid1 : forallb valid_name [n] = true) by (simpl; by rewrite Hvalid).
  unfold try_io. rewrite run_bind, Hparent.
  rewrite mkdir_parents_existing by (unfold entry; by rewrite Hwalk).
  rewrite run_bind. unfold write_text.
  rewrite Habs, (walk_app _ _ _ _ _ Hwalk) by (by apply valid_names_no_nul).
  rewrite (walk_cons_dir _ _ _ _ Hvalid1 Hdir). simpl.
  unfold step. rewrite (bool_decide_eq_false_2 _ Hn).
  destruct (node_at fs (q ++ [n])) as [[|s]|]; done.
Qed.

Lemma abs_parts_snoc p l c :
  parts p = l ++ [c] → ∃ l', abs_parts cwd p = l' ++ [c].
Proof.
  intros H. unfold abs_parts. rewrite H.
  destruct (path_anchor p); [exists (cwd ++ l); by rewrite app_assoc | by exists l ..].
Qed.

Lemma abs_parts_resolve p : abs_parts cwd (resolve cwd p) = normalize (abs_parts cwd p).
Proof. reflexivity. Qed.

Lemma name_resolve p c :
  last (parts p) = Some c → c ≠ ".." → name (resolve cwd p) = c.
Proof.
  intros Hlast Hc. apply last_Some in Hlast as [l Hl].
  destruct (abs_parts_snoc p l c Hl) as [l' Habs].
  unfold name, resolve. simpl. rewrite Habs. unfold normalize.
  rewrite foldl_app. simpl. unfold step at 1.
  rewrite bool_decide_eq_false_2 by done. by rewrite last_snoc.
Qed.

(** C6.  When [create_note] succeeds, writing a text without carriage
    return to a path whose file name is not just [.md], the created path
    is the vault joined with the given path, [.md] added after it only if
    it does not end in [.md] already, and reading the note back, by
    [read_note] on the created path or by the tool on the relative path,
    returns the text written. *)
Theorem create_then_read
    (vault : Path) (p c : string) (fs fs' : fstree) (full_path : Path) :
  create_note cwd (Some vault) p c fs = (Ok (Some full_path), fs') →
  name full_path ≠ ".md" →
  no_CR c = true →
  full_path = joinpath vault (if endswith p ".md" then p else p +:+ ".md")
  ∧ read_note cwd full_path fs' = (Ok (Some c), fs')
  ∧ get_obsidian_note cwd (Some vault) (with_md p) fs'
    = (Ok (json_dumps (JObj [("path", JStr (with_md p)); ("content", JStr c)])), fs').
Proof.
  intros Hcreate Hname Hcr.
  destruct (create_note_inv _ _ _ _ _ _ Hcreate)
    as (Hfull & fs1 & q & _ & Hwalk & Hnode & ->).
  split; [exact Hfull|].
  destruct (joinpath_last vault (with_md p) (with_md_endswith p)) as (n & Hlast & Hn).
  rewrite <- Hfull in Hlast.
  assert (Hn' : name full_path = n) by (unfold name; by rewrite Hlast).
  assert (Hsuffix : suffix full_path = ".md").
  { unfold suffix. rewrite Hn'. apply name_suffix_md; [exact Hn|congruence]. }
  assert (Hq : q ≠ []) by (intros ->; by apply Hnode).
  assert (Hfile : node_at (<[q := File c]> fs1) q = Some (File c)).
  { destruct q; [done|]. simpl. apply lookup_insert_eq. }
  pose proof (walk_insert_file fs1 c _ _ _ Hwalk Hnode) as Hwalk'.
  assert (Hentry : entry cwd (<[q := File c]> fs1) full_path = Some (File c)).
  { unfold entry. by rewrite Hwalk'. }
  split.
  - rewrite (read_note_reads _ _ c Hsuffix Hentry).
    by rewrite universal_newlines_id.
  - unfold get_obsidian_note, get_path. run. rewrite <- Hfull.
    rewrite (read_note_reads _ _ c).
    + run. by rewrite universal_newlines_id.
    + unfold suffix. rewrite (name_resolve full_path n Hlast).
      * apply name_suffix_md; [exact Hn|congruence].
      * by destruct (endswith_md_name n Hn) as (_ & _ & ?).
    + unfold entry. rewrite abs_parts_resolve.
      rewrite (walk_normalize _ _ _ Hwalk').
      by rewrite (walk_resolved _ _ _ Hwalk').
Qed.


End Process.


(** ** The tools on the sample vaults *)

Lemma run_is (A : Type) (r : result A * fstree) (a : result A) (fs : fstree) :
  r.1 = a → r.2 = fs → r = (a, fs).
Proof. destruct r. simpl. congruence. Qed.

(** A closed run: the result by evaluation, the file system by deciding
    the equality of the two maps. *)
Ltac evaluate :=
  apply run_is;
  [ vm_compute; reflexivity
  | apply (bool_decide_unpack _); vm_compute; exact I ].


(** C10.  Resolution does not keep a path inside the vault: with the
    vault at [/vault], the relative path [../x.md] resolves to [/x.md],
    which is not below [/vault], and the three tools create, read and
    extend the file [/x.md].  The same holds of every vault at an absolute
    location: [../x.md] resolves to the sibling [x.md] of the vault. *)
Theorem parent_segments_leave_the_vault :
  get_path [] (Some sample_vault) "../x.md" empty_vault
    = (Ok (Some (MkPath Root ["x.md"])), empty_vault)
  ∧ parts sample_vault = ["vault"]
  ∧ bool_decide (parts sample_vault `prefix_of` ["x.md"]) = false
  ∧ create_obsidian_note [] (Some sample_vault) "../x.md" "secret" empty_vault
    = (Ok (json_dumps (JObj [("message", JStr "Note created/updated successfully.");
                             ("path", JStr "../x.md")])),
       <[ ["x.md"] := File "secret" ]> empty_vault)
  ∧ get_obsidian_note [] (Some sample_vault) "../x.md"
      (<[ ["x.md"] := File "secret" ]> empty_vault)
    = (Ok (json_dumps (JObj [("path", JStr "../x.md"); ("content", JStr "secret")])),
       <[ ["x.md"] := File "secret" ]> empty_vault)
  ∧ append_obsidian_note [] (Some sample_vault) "../x.md" "more"
      (<[ ["x.md"] := File "secret" ]> empty_vault)
    = (Ok (json_dumps (JObj [("message",
             JStr "Content appended to '../x.md' successfully.")])),
       <[ ["x.md"] := File ("secret" +:+ String LF "more") ]> empty_vault)
  ∧ (∀ cwd vault_parts fs,
       vault_parts ≠ [] → plain vault_parts → last vault_parts ≠ Some "x.md" →
       get_path cwd (Some (MkPath Root vault_parts)) "../x.md" fs
         = (Ok (Some (MkPath Root (removelast vault_parts ++ ["x.md"]))), fs)
       ∧ ¬ vault_parts `prefix_of` removelast vault_parts ++ ["x.md"]).
Proof.
  split; [evaluate|]. split; [reflexivity|]. split; [reflexivity|].
  split; [evaluate|]. split; [evaluate|]. split; [evaluate|].
  intros cwd vault_parts fs Hne Hplain Hlast. split.
  - unfold get_path. rewrite run_bind. unfold load_VAULT_PATH. rewrite run_ret.
    unfold path_truthy. cbn [negb]. cbv iota beta.
    by rewrite run_ret, resolve_parent_segment.
  - by apply sibling_not_below.
Qed.

Lemma unbound_vault_raises_witness :
  get_obsidian_note [] (module_init None) "x.md" empty_vault
    = (Raise unbound_VAULT_PATH, empty_vault)
  ∧ create_obsidian_note [] (module_init None) "x" "hello" empty_vault
    = (Raise unbound_VAULT_PATH, empty_vault)
  ∧ append_obsidian_note [] (module_init None) "x.md" "more" empty_vault
    = (Raise unbound_VAULT_PATH, empty_vault).
Proof. exact (unbound_vault_raises [] None "x.md" "hello" empty_vault eq_refl). Defined.


Lemma append_needs_markdown_file_witness :
  append_obsidian_note [] (Some sample_vault) "missing.md" "b" empty_vault
    = (Ok (error_payload "Note not found or is not a file (cannot append): missing.md"),
       empty_vault)
  ∧ append_obsidian_note [] (Some sample_vault) "notes.txt" "b" (vault_with "notes.txt" "a")
    = (Ok (error_payload "Failed to append content to note: notes.txt"),
       vault_with "notes.txt" "a").
Proof.
  split.
  - exact (proj2 (append_needs_markdown_file [] sample_vault "missing.md" "b" empty_vault
                    eq_refl eq_refl (or_introl eq_refl))).
  - refine (proj2 (append_needs_markdown_file [] sample_vault "notes.txt" "b"
                    (vault_with "notes.txt" "a") eq_refl eq_refl
                    (or_intror (or_intror _)))).
    vm_compute. discriminate.
Defined.

(** A regular file of the vault that is no [.md] file: the tool answers
    with the payload of a failed append, in which nothing says that the
    note was not found. *)
Lemma append_to_another_suffix :
  entry [] (vault_with "notes.txt" "a") (resolve [] (joinpath sample_vault "notes.txt"))
    = Some (File "a")
  ∧ lower (suffix (resolve [] (joinpath sample_vault "notes.txt"))) = ".txt"
  ∧ append_obsidian_note [] (Some sample_vault) "notes.txt" "b" (vault_with "notes.txt" "a")
    = (Ok (error_payload "Failed to append content to note: notes.txt"),
       vault_with "notes.txt" "a")
  ∧ is_substring "not found" (lower "Failed to append content to note: notes.txt") = false
  ∧ bool_decide ("Failed to append content to note: notes.txt"
                 = "Note not found or is not a file (cannot append): notes.txt") = false.
Proof.
  split; [reflexivity|]. split; [reflexivity|]. split; [evaluate|].
  split; reflexivity.
Qed.



Lemma create_then_read_witness :
  create_note [] (Some sample_vault) "x" "hello" empty_vault
    = (Ok (Some (MkPath Root ["vault"; "x.md"])), vault_with "x.md" "hello")
  ∧ get_obsidian_note [] (Some sample_vault) "x.md" (vault_with "x.md" "hello")
    = (Ok (json_dumps (JObj [("path", JStr "x.md"); ("content", JStr "hello")])),
       vault_with "x.md" "hello")
  ∧ create_note [] (Some sample_vault) "x.md" "hello" empty_vault
    = (Ok (Some (MkPath Root ["vault"; "x.md"])), vault_with "x.md" "hello").
Proof.
  assert (H : create_note [] (Some sample_vault) "x" "hello" empty_vault
              = (Ok (Some (MkPath Root ["vault"; "x.md"])), vault_with "x.md" "hello"))
    by evaluate.
  split; [exact H|]. split; [|evaluate].
  refine (proj2 (proj2 (create_then_read [] sample_vault "x" "hello" empty_vault
                          (vault_with "x.md" "hello") (MkPath Root ["vault"; "x.md"])
                          H _ eq_refl))).
  vm_compute. discriminate.
Defined.

(** Two notes that do not read back as written: the note named [.md],
    whose name has no suffix for [pathlib], is created and then not
    found; the text with a DOS line ending is read back with a Unix
    one. *)
Lemma create_then_read_differs :
  create_note [] (Some sample_vault) ".md" "hello" empty_vault
    = (Ok (Some (MkPath Root ["vault"; ".md"])), vault_with ".md" "hello")
  ∧ read_note [] (MkPath Root ["vault"; ".md"]) (vault_with ".md" "hello")
    = (Ok None, vault_with ".md" "hello")
  ∧ get_obsidian_note [] (Some sample_vault) ".md" (vault_with ".md" "hello")
    = (Ok (error_payload "Note not found or could not be read: .md"),
       vault_with ".md" "hello")
  ∧ create_note [] (Some sample_vault) "x" dos_lines empty_vault
    = (Ok (Some (MkPath Root ["vault"; "x.md"])), vault_with "x.md" dos_lines)
  ∧ read_note [] (MkPath Root ["vault"; "x.md"]) (vault_with "x.md" dos_lines)
    = (Ok (Some unix_lines), vault_with "x.md" dos_lines)
  ∧ bool_decide (unix_lines = dos_lines) = false.
Proof.
  split; [evaluate|]. split; [evaluate|]. split; [evaluate|].
  split; [evaluate|]. split; [evaluate|]. reflexivity.
Qed.

End VaultFacts.

(** * Further properties of the remote-repository tools *)

Module GithubMore.
Import Github GithubFacts.

Lemma token_set token : token ≠ "" → env_unset (Some token) = false.
Proof. intros H. simpl. by apply bool_decide_eq_false. Qed.

Section Transport.

Context (net : Network) (b64decode_utf8 : json → result string).

(** X1.  Without a token (the environment value absent or empty) each of
    the three tools returns the configuration-error payload, whatever the
    transport would answer: no request is made. *)
Theorem missing_token_is_configuration_error
    (token : option string) (owner repo path : string) :
  env_unset token = true →
  get_github_last_merged_pr net token owner repo = Ok (json_dumps configuration_error)
  ∧ get_repo_contents net token owner repo path = Ok (json_dumps configuration_error)
  ∧ get_file_contents net b64decode_utf8 token owner repo path
    = Ok (json_dumps configuration_error).
Proof.
  intros H. unfold get_github_last_merged_pr, get_repo_contents, get_file_contents.
  rewrite H. repeat split.
Qed.

Lemma dir_entry_object item :
  is_object item = true → dir_entry item = Ok (directory_entry item).
Proof.
  destruct item as [| | | | |kvs]; try discriminate. intros _.
  unfold dir_entry. rewrite !py_get_obj. reflexivity.
Qed.

Lemma dir_entries_objects items :
  forallb is_object items = true → dir_entries items = Ok (directory_entry <$> items).
Proof.
  induction items as [|item items IH]; simpl; [reflexivity|].
  rewrite andb_true_iff. intros [Hitem Hitems].
  rewrite dir_entry_object by exact Hitem. cbn [mbind result_bind].
  rewrite IH by exact Hitems. reflexivity.
Qed.

(** X2.  When the API answers the listing with a list of objects,
    [get_repo_contents] returns one Directory Entry per item, in the
    order of the answer; a field the item lacks is null in its entry. *)
Theorem listing_projects_every_item
    (token owner repo path : string) (resp : Response) (items : list json) :
  token ≠ "" →
  net_request net "GET" (api_url owner repo ("contents/" +:+ path)) = Ok resp →
  resp_json resp = Ok (JArr items) →
  forallb is_object items = true →
  get_repo_contents net (Some token) owner repo path
    = Ok (json_dumps_indent (JArr (directory_entry <$> items)) 2).
Proof.
  intros Htok Hreq Hjson Hitems.
  unfold get_repo_contents, get_dir_content, _make_github_request.
  rewrite (token_set _ Htok). cbn [Github.owner Github.repo].
  fold (api_url owner repo ("contents/" +:+ path)).
  rewrite Hreq. simpl. rewrite Hjson. simpl.
  rewrite dir_entries_objects by exact Hitems. reflexivity.
Qed.

(** X3.  When the path addresses a file the API answers the listing with
    one object; the loop of [get_dir_content] then runs over the keys of
    that object, and the first key, a string, has no [get]: the tool
    raises an [AttributeError].  An object without keys gives the empty
    listing. *)
Theorem listing_a_file_raises
    (token owner repo path : string) (resp : Response) (file_data : list (string * json)) :
  token ≠ "" →
  net_request net "GET" (api_url owner repo ("contents/" +:+ path)) = Ok resp →
  resp_json resp = Ok (JObj file_data) →
  get_repo_contents net (Some token) owner repo path
  = match file_data with
    | [] => Ok (json_dumps_indent (JArr []) 2)
    | _ :: _ => Raise (Exn AttributeError "'str' object has no attribute 'get'")
    end.
Proof.
  intros Htok Hreq Hjson.
  unfold get_repo_contents, get_dir_content, _make_github_request.
  rewrite (token_set _ Htok). cbn [Github.owner Github.repo].
  fold (api_url owner repo ("contents/" +:+ path)).
  rewrite Hreq. simpl. rewrite Hjson. simpl.
  destruct file_data as [|[k v] kvs]; reflexivity.
Qed.

Lemma pr_summary_object pr d : pr_summary pr = Ok d → is_object d = true.
Proof.
  unfold pr_summary. intros H.
  repeat match type of H with
         | (?m ≫= _) = Ok _ => destruct m; cbn [mbind result_bind] in H; [|discriminate]
         end.
  by injection H as <-.
Qed.

Lemma scan_object prs d : scan_pull_requests prs = Ok (Some d) → is_object d = true.
Proof.
  induction prs as [|pr prs IH]; simpl; [discriminate|].
  destruct (py_get pr "merged_at") as [m|e]; cbn [mbind result_bind]; [|discriminate].
  destruct (truthy m); [|exact IH].
  destruct (pr_summary pr) as [d'|e] eqn:E; cbn [mbind result_bind]; [|discriminate].
  intros [= <-]. by eapply pr_summary_object.
Qed.

Lemma details_object self :
  ∃ r, get_last_merged_pr_details net self = Ok r
       ∧ ∀ d, r = Some d → is_object d = true.
Proof.
  unfold get_last_merged_pr_details.
  match goal with |- context [try_except ?m _ _] => destruct m as [r|e] eqn:E end.
  - exists r. split; [reflexivity|]. intros d ->.
    destruct (_make_github_request net self _ _) as [resp|e];
      cbn [mbind result_bind] in E; [|discriminate].
    destruct (resp_json resp) as [v|e]; cbn [mbind result_bind] in E; [|discriminate].
    destruct (py_iter v) as [l|e]; cbn [mbind result_bind] in E; [|discriminate].
    by eapply scan_object.
  - eexists. split; [reflexivity|]. by intros d [= <-].
Qed.

(** X4.  [get_github_last_merged_pr] never raises: whatever the token,
    the transport does and the answer holds, it returns a payload, and
    the payload is a JSON object. *)
Theorem last_merged_pr_never_raises (token : option string) (owner repo : string) :
  ∃ kvs ind, get_github_last_merged_pr net token owner repo = Ok (Dumps (JObj kvs) ind).
Proof.
  unfold get_github_last_merged_pr. destruct (env_unset token); [by eauto|].
  destruct (details_object (Build_GitHubHelper owner repo (default "" token)))
    as (r & -> & Hobj).
  cbn [mbind result_bind]. destruct r as [d|]; [|by eauto].
  specialize (Hobj d eq_refl). destruct d as [| | | | |kvs]; try discriminate.
  simpl. destruct (has_key "error_message" kvs); by eauto.
Qed.

Lemma scan_skips pre rest :
  forallb unmerged pre = true →
  scan_pull_requests (pre ++ rest) = scan_pull_requests rest.
Proof.
  induction pre as [|p pre IH]; simpl; [reflexivity|].
  rewrite andb_true_iff. intros [Hp Hpre].
  destruct p as [| | | | |kvs]; try discriminate.
  rewrite py_get_obj. cbn [mbind result_bind].
  unfold unmerged in Hp. cbn [is_object andb] in Hp. apply negb_true_iff in Hp.
  rewrite Hp. auto.
Qed.

(** X5.  The scan reads no item after the first merged one: when the
    items before it are objects whose [merged_at] is absent, null or
    empty, the helper returns the summary of the merged item, or the
    error dictionary when building that summary raises, whatever follows
    the merged item, even items that are no objects. *)
Theorem scan_stops_at_first_merged
    (token owner repo : string) (resp : Response) (pre post : list json) (pr : json) :
  net_request net "GET" (api_url owner repo pulls_endpoint) = Ok resp →
  resp_json resp = Ok (JArr (pre ++ pr :: post)) →
  forallb unmerged pre = true →
  merged pr = true →
  get_last_merged_pr_details net (Build_GitHubHelper owner repo token)
  = Ok (Some (match pr_summary pr with
              | Ok d => d
              | Raise e =>
                  JObj [("error_message",
                         JStr ("Failed to retrieve or process last merged PR details: " +:+
                               exn_text e))]
              end)).
Proof.
  intros Hreq Hjson Hpre Hpr.
  unfold get_last_merged_pr_details, _make_github_request.
  cbn [Github.owner Github.repo].
  fold pulls_endpoint. fold (api_url owner repo pulls_endpoint).
  rewrite Hreq. simpl try_except at 2. cbn [mbind result_bind]. rewrite Hjson.
  cbn [mbind result_bind py_iter]. rewrite scan_skips by exact Hpre.
  destruct pr as [| | | | |kvs]; try discriminate.
  cbn [scan_pull_requests]. rewrite !py_get_obj. cbn [mbind result_bind].
  unfold merged in Hpr. cbn [is_object andb] in Hpr. rewrite Hpr.
  destruct (pr_summary (JObj kvs)); reflexivity.
Qed.

(** X10.  When the answer is a list of objects none of which is merged
    (each [merged_at] absent, null or empty), the tool returns the
    message that no merged pull request was found, not an error. *)
Theorem none_merged_gives_message
    (token owner repo : string) (resp : Response) (prs : list json) :
  token ≠ "" →
  net_request net "GET" (api_url owner repo pulls_endpoint) = Ok resp →
  resp_json resp = Ok (JArr prs) →
  forallb unmerged prs = true →
  get_github_last_merged_pr net (Some token) owner repo
    = Ok (json_dumps (JObj [("message",
           JStr ("No recently merged PRs found for " +:+ owner +:+ "/" +:+
                 repo +:+ "."))])).
Proof.
  intros Htok Hreq Hjson Hprs.
  unfold get_github_last_merged_pr, get_last_merged_pr_details, _make_github_request.
  rewrite (token_set _ Htok). cbn [Github.owner Github.repo].
  fold pulls_endpoint. fold (api_url owner repo pulls_endpoint).
  rewrite Hreq. simpl. rewrite Hjson. simpl.
  rewrite <- (app_nil_r prs), scan_skips by exact Hprs. reflexivity.
Qed.

Lemma decode_file_data_total file_data content_b64 encoding :
  ∃ c enc, decode_file_data net b64decode_utf8 (JObj file_data) content_b64 encoding
           = Ok (JStr c, enc).
Proof.
  unfold decode_file_data.
  destruct (truthy content_b64 && eq_str encoding "base64").
  - destruct (b64decode_utf8 content_b64); simpl; eauto.
  - rewrite py_get_obj. cbn [mbind result_bind].
    destruct (truthy (field (JObj file_data) "download_url")); [|by eauto].
    match goal with |- context [try_except ?m _ _] => destruct m as [[c enc]|e] eqn:E end;
      simpl; [|by eauto].
    destruct (py_index (JObj file_data) "download_url");
      cbn [mbind result_bind] in E; [|discriminate].
    destruct (net_get net a); cbn [mbind result_bind] in E; [|discriminate].
    injection E as <- <-. eauto.
Qed.

Lemma file_content_object
    (owner repo token path : string) (resp : Response) (file_data : list (string * json)) :
  net_request net "GET" (api_url owner repo ("contents/" +:+ path)) = Ok resp →
  resp_json resp = Ok (JObj file_data) →
  get_file_content net b64decode_utf8 (Build_GitHubHelper owner repo token) path
  = (r ← decode_file_data net b64decode_utf8 (JObj file_data)
          (field (JObj file_data) "content") (field (JObj file_data) "encoding");
     mret (file_record (JObj file_data) r.2 r.1)).
Proof.
  intros Hreq Hjson. unfold get_file_content, _make_github_request.
  cbn [Github.owner Github.repo].
  fold (api_url owner repo ("contents/" +:+ path)).
  rewrite Hreq. simpl try_except at 2. cbn [mbind result_bind]. rewrite Hjson.
  cbn [mbind result_bind]. rewrite !py_get_obj. cbn [mbind result_bind].
  destruct (decode_file_data_total file_data (field (JObj file_data) "content")
              (field (JObj file_data) "encoding")) as (c & enc & ->).
  reflexivity.
Qed.

Lemma file_contents_record
    (owner repo token path : string) (resp : Response) (file_data : list (string * json))
    (c enc : json) :
  token ≠ "" →
  net_request net "GET" (api_url owner repo ("contents/" +:+ path)) = Ok resp →
  resp_json resp = Ok (JObj file_data) →
  decode_file_data net b64decode_utf8 (JObj file_data)
    (field (JObj file_data) "content") (field (JObj file_data) "encoding") = Ok (c, enc) →
  get_file_contents net b64decode_utf8 (Some token) owner repo path
  = Ok (json_dumps_indent (file_record (JObj file_data) enc c) 2).
Proof.
  intros Htok Hreq Hjson Hdec. unfold get_file_contents.
  rewrite (token_set _ Htok). simpl default.
  rewrite (file_content_object _ _ _ _ _ _ Hreq Hjson), Hdec. reflexivity.
Qed.

(** X6.  When the API answers the metadata request with an object,
    [get_file_contents] returns a File Content Record and does not raise,
    whatever the object holds and whatever the decoder and the download
    do: the six metadata fields are read from the object, null when
    absent, and the content is a string. *)
Theorem file_contents_of_an_object_never_raises
    (token owner repo path : string) (resp : Response) (file_data : list (string * json)) :
  token ≠ "" →
  net_request net "GET" (api_url owner repo ("contents/" +:+ path)) = Ok resp →
  resp_json resp = Ok (JObj file_data) →
  ∃ content encoding,
    get_file_contents net b64decode_utf8 (Some token) owner repo path
    = Ok (json_dumps_indent (JObj
        [("name", field (JObj file_data) "name");
         ("path", field (JObj file_data) "path");
         ("sha", field (JObj file_data) "sha");
         ("size", field (JObj file_data) "size");
         ("encoding", encoding);
         ("content", JStr content);
         ("html_url", field (JObj file_data) "html_url");
         ("download_url", field (JObj file_data) "download_url")]) 2).
Proof.
  intros Htok Hreq Hjson.
  destruct (decode_file_data_total file_data (field (JObj file_data) "content")
              (field (JObj file_data) "encoding")) as (c & enc & Hdec).
  exists c, enc. by apply (file_contents_record _ _ _ _ _ _ _ _ Htok Hreq Hjson).
Qed.

(** X7.  An inline payload tagged [base64] that decodes is returned as
    the content, with the encoding [base64]; the download address, if
    any, is not fetched. *)
Theorem inline_payload_is_decoded
    (token owner repo path : string) (resp : Response)
    (file_data : list (string * json)) (text : string) :
  token ≠ "" →
  net_request net "GET" (api_url owner repo ("contents/" +:+ path)) = Ok resp →
  resp_json resp = Ok (JObj file_data) →
  truthy (field (JObj file_data) "content") = true →
  field (JObj file_data) "encoding" = JStr "base64" →
  b64decode_utf8 (field (JObj file_data) "content") = Ok text →
  get_file_contents net b64decode_utf8 (Some token) owner repo path
  = Ok (json_dumps_indent (file_record (JObj file_data) (JStr "base64") (JStr text)) 2).
Proof.
  intros Htok Hreq Hjson Hcontent Henc Hdec.
  apply (file_contents_record _ _ _ _ _ _ _ _ Htok Hreq Hjson).
  unfold decode_file_data. rewrite Hcontent, Henc, Hdec. reflexivity.
Qed.

(** X8.  Without a usable inline payload (none, or a tag other than
    [base64]) and with a download address, the file is fetched from that
    address: the body of the answer is the content and the encoding is
    the declared charset, [utf-8] when none is declared; when the fetch
    raises, the record carries the encoding [error_downloading] and the
    content [Error: Could not download content.] *)
Theorem download_address_is_fetched
    (token owner repo path : string) (resp : Response) (file_data : list (string * json)) :
  token ≠ "" →
  net_request net "GET" (api_url owner repo ("contents/" +:+ path)) = Ok resp →
  resp_json resp = Ok (JObj file_data) →
  truthy (field (JObj file_data) "content")
    && eq_str (field (JObj file_data) "encoding") "base64" = false →
  truthy (field (JObj file_data) "download_url") = true →
  get_file_contents net b64decode_utf8 (Some token) owner repo path
  = Ok (json_dumps_indent
      (match net_get net (field (JObj file_data) "download_url") with
       | Ok raw => file_record (JObj file_data)
                     (JStr (charset_label (resp_encoding raw))) (JStr (resp_text raw))
       | Raise _ => file_record (JObj file_data)
                     (JStr "error_downloading") (JStr "Error: Could not download content.")
       end) 2).
Proof.
  intros Htok Hreq Hjson Hinline Hurl.
  assert (Hidx : py_index (JObj file_data) "download_url"
                 = Ok (field (JObj file_data) "download_url")).
  { unfold py_index, field in *. destruct (assoc "download_url" file_data); [done|].
    discriminate. }
  destruct (net_get net (field (JObj file_data) "download_url")) as [raw|e] eqn:Hget;
    apply (file_contents_record _ _ _ _ _ _ _ _ Htok Hreq Hjson);
    unfold decode_file_data; rewrite Hinline, py_get_obj; cbn [mbind result_bind];
    rewrite Hurl, Hidx; cbn [mbind result_bind]; rewrite Hget; reflexivity.
Qed.

(** X9.  With neither a usable inline payload nor a download address the
    record has the empty content and the encoding the metadata declares,
    null when it declares none. *)
Theorem bare_metadata_has_empty_content
    (token owner repo path : string) (resp : Response) (file_data : list (string * json)) :
  token ≠ "" →
  net_request net "GET" (api_url owner repo ("contents/" +:+ path)) = Ok resp →
  resp_json resp = Ok (JObj file_data) →
  truthy (field (JObj file_data) "content")
    && eq_str (field (JObj file_data) "encoding") "base64" = false →
  truthy (field (JObj file_data) "download_url") = false →
  get_file_contents net b64decode_utf8 (Some token) owner repo path
  = Ok (json_dumps_indent
      (file_record (JObj file_data) (field (JObj file_data) "encoding") (JStr "")) 2).
Proof.
  intros Htok Hreq Hjson Hinline Hurl.
  apply (file_contents_record _ _ _ _ _ _ _ _ Htok Hreq Hjson).
  unfold decode_file_data. rewrite Hinline, py_get_obj. cbn [mbind result_bind].
  rewrite Hurl. reflexivity.
Qed.

(** X11.  A request answered with an HTTP error status, as for a path
    that does not exist, gives an error payload that names the path and
    the repository: [Directory or path not found: ...] from the listing,
    [content not found: ...] from the file fetch. *)
Theorem http_error_is_not_found (token owner repo path : string) (e : exn) :
  token ≠ "" → is_HTTPError e = true →
  (∀ method url, net_request net method url = Raise e) →
  get_repo_contents net (Some token) owner repo path
    = Ok (json_dumps_indent (JObj [("error_message",
           JStr ("Directory or path not found: " +:+ path +:+ " in " +:+
                 owner +:+ "/" +:+ repo))]) 2)
  ∧ get_file_contents net b64decode_utf8 (Some token) owner repo path
    = Ok (json_dumps (JObj [("error_message",
           JStr ("content not found: " +:+ path +:+ " in " +:+
                 owner +:+ "/" +:+ repo))])).
Proof.
  intros Htok He Hnet. split.
  - unfold get_repo_contents, get_dir_content, _make_github_request.
    rewrite (token_set _ Htok), Hnet. simpl. by rewrite He.
  - unfold get_file_contents, get_file_content, _make_github_request.
    rewrite (token_set _ Htok), Hnet. simpl. by rewrite He.
Qed.

End Transport.

Lemma missing_token_is_configuration_error_witness :
  get_github_last_merged_pr (failing (Exn ConnectionError "unreachable")) None "o" "r"
    = Ok (json_dumps configuration_error)
  ∧ get_repo_contents (answering sample_listing) (Some "") "o" "r" "src"
    = Ok (json_dumps configuration_error).
Proof.
  split.
  - exact (proj1 (missing_token_is_configuration_error
                    (failing (Exn ConnectionError "unreachable")) sample_decoder
                    None "o" "r" "" eq_refl)).
  - exact (proj1 (proj2 (missing_token_is_configuration_error
                    (answering sample_listing) sample_decoder
                    (Some "") "o" "r" "src" eq_refl))).
Defined.

Lemma listing_projects_every_item_witness :
  get_repo_contents (answering (JArr two_entries)) (Some "token") "o" "r" ""
    = Ok (json_dumps_indent (JArr
        [JObj [("name", JStr "README.md"); ("path", JStr "README.md");
               ("type", JStr "file"); ("size", JNum 12); ("sha", JNull);
               ("html_url", JNull); ("download_url", JNull)];
         JObj [("name", JStr "src"); ("path", JStr "src");
               ("type", JStr "dir"); ("size", JNull); ("sha", JNull);
               ("html_url", JNull); ("download_url", JNull)]]) 2).
Proof.
  refine (listing_projects_every_item (answering (JArr two_entries))
            "token" "o" "r" "" (json_response (JArr two_entries)) two_entries _ _ _ _);
    [discriminate | reflexivity | reflexivity | reflexivity].
Defined.

Lemma listing_a_file_raises_witness :
  get_repo_contents (answering sample_file_data) (Some "token") "o" "r" "src/main.py"
    = Raise (Exn AttributeError "'str' object has no attribute 'get'").
Proof.
  refine (listing_a_file_raises (answering sample_file_data)
            "token" "o" "r" "src/main.py" (json_response sample_file_data)
            sample_file_fields _ _ _);
    [discriminate | reflexivity | reflexivity].
Defined.

Lemma scan_stops_at_first_merged_witness :
  get_last_merged_pr_details
    (answering (JArr (closed_pulls ++ merged_pull :: [JStr "not an item"; JNum 7])))
    (Build_GitHubHelper "o" "r" "token")
  = Ok (Some (JObj
        [("number", JNum 10); ("title", JStr "Add parser"); ("url", JNull);
         ("merged_at", JStr "2025-06-07T10:00:00Z"); ("merged_by", JNull);
         ("author", JNull); ("body_summary", JStr "");
         ("head_commit_sha", JNull); ("base_branch", JNull)])).
Proof.
  refine (scan_stops_at_first_merged
            (answering (JArr (closed_pulls ++ merged_pull :: [JStr "not an item"; JNum 7])))
            "token" "o" "r"
            (json_response (JArr (closed_pulls ++ merged_pull :: [JStr "not an item"; JNum 7])))
            closed_pulls [JStr "not an item"; JNum 7] merged_pull _ _ _ _);
    reflexivity.
Defined.

Lemma none_merged_gives_message_witness :
  get_github_last_merged_pr (answering (JArr closed_pulls)) (Some "token") "o" "r"
    = Ok (json_dumps (JObj [("message", JStr "No recently merged PRs found for o/r.")])).
Proof.
  refine (none_merged_gives_message (answering (JArr closed_pulls))
            "token" "o" "r" (json_response (JArr closed_pulls)) closed_pulls _ _ _ _);
    [discriminate | reflexivity | reflexivity | reflexivity].
Defined.

Lemma http_error_is_not_found_witness :
  get_repo_contents (failing (Exn HTTPError "404 Client Error: Not Found"))
      (Some "token") "o" "r" "no/such/dir"
    = Ok (json_dumps_indent (JObj [("error_message",
           JStr "Directory or path not found: no/such/dir in o/r")]) 2)
  ∧ get_file_contents (failing (Exn HTTPError "404 Client Error: Not Found"))
      sample_decoder (Some "token") "o" "r" "no/such/file.py"
    = Ok (json_dumps (JObj [("error_message",
           JStr "content not found: no/such/file.py in o/r")])).
Proof.
  split.
  - refine (proj1 (http_error_is_not_found
              (failing (Exn HTTPError "404 Client Error: Not Found")) sample_decoder
              "token" "o" "r" "no/such/dir"
              (Exn HTTPError "404 Client Error: Not Found") _ _ _));
      [discriminate | reflexivity | reflexivity].
  - refine (proj2 (http_error_is_not_found
              (failing (Exn HTTPError "404 Client Error: Not Found")) sample_decoder
              "token" "o" "r" "no/such/file.py"
              (Exn HTTPError "404 Client Error: Not Found") _ _ _));
      [discriminate | reflexivity | reflexivity].
Defined.

Lemma file_contents_of_an_object_never_raises_witness :
  ∃ content encoding,
    get_file_contents (answering (JObj [("content", JNum 5); ("encoding", JStr "base64")]))
      sample_decoder (Some "token") "o" "r" "odd"
    = Ok (json_dumps_indent (JObj
        [("name", JNull); ("path", JNull); ("sha", JNull); ("size", JNull);
         ("encoding", encoding); ("content", JStr content);
         ("html_url", JNull); ("download_url", JNull)]) 2).
Proof.
  refine (file_contents_of_an_object_never_raises
            (answering (JObj [("content", JNum 5); ("encoding", JStr "base64")]))
            sample_decoder "token" "o" "r" "odd"
            (json_response (JObj [("content", JNum 5); ("encoding", JStr "base64")]))
            [("content", JNum 5); ("encoding", JStr "base64")] _ _ _);
    [discriminate | reflexivity | reflexivity].
Defined.

Lemma inline_payload_is_decoded_witness :
  get_file_contents (answering (JObj small_file_fields)) sample_decoder
      (Some "token") "o" "r" "hi.txt"
    = Ok (json_dumps_indent (JObj
        [("name", JStr "hi.txt"); ("path", JStr "hi.txt"); ("sha", JStr "f00");
         ("size", JNum 5); ("encoding", JStr "base64"); ("content", JStr "hello");
         ("html_url", JNull);
         ("download_url", JStr "https://raw.githubusercontent.com/o/r/main/hi.txt")]) 2).
Proof.
  refine (inline_payload_is_decoded (answering (JObj small_file_fields)) sample_decoder
            "token" "o" "r" "hi.txt" (json_response (JObj small_file_fields))
            small_file_fields "hello" _ _ _ _ _ _);
    [discriminate | reflexivity | reflexivity | reflexivity | reflexivity | reflexivity].
Defined.

Lemma download_address_is_fetched_witness :
  get_file_contents (downloading (JObj large_file_fields) (Ok csv_response)) sample_decoder
      (Some "token") "o" "r" "data.csv"
    = Ok (json_dumps_indent
        (file_record (JObj large_file_fields) (JStr "utf-8") (JStr "a,b")) 2)
  ∧ get_file_contents
      (downloading (JObj large_file_fields) (Raise (Exn ConnectionError "reset")))
      sample_decoder (Some "token") "o" "r" "data.csv"
    = Ok (json_dumps_indent
        (file_record (JObj large_file_fields) (JStr "error_downloading")
           (JStr "Error: Could not download content.")) 2).
Proof.
  split.
  - refine (download_address_is_fetched
              (downloading (JObj large_file_fields) (Ok csv_response)) sample_decoder
              "token" "o" "r" "data.csv" (json_response (JObj large_file_fields))
              large_file_fields _ _ _ _ _);
      [discriminate | reflexivity | reflexivity | reflexivity | reflexivity].
  - refine (download_address_is_fetched
              (downloading (JObj large_file_fields) (Raise (Exn ConnectionError "reset")))
              sample_decoder
              "token" "o" "r" "data.csv" (json_response (JObj large_file_fields))
              large_file_fields _ _ _ _ _);
      [discriminate | reflexivity | reflexivity | reflexivity | reflexivity].
Defined.

Lemma bare_metadata_has_empty_content_witness :
  get_file_contents (answering (JObj bare_fields)) sample_decoder
      (Some "token") "o" "r" "vendor"
    = Ok (json_dumps_indent (file_record (JObj bare_fields) JNull (JStr "")) 2).
Proof.
  refine (bare_metadata_has_empty_content (answering (JObj bare_fields)) sample_decoder
            "token" "o" "r" "vendor" (json_response (JObj bare_fields))
            bare_fields _ _ _ _ _);
    [discriminate | reflexivity | reflexivity | reflexivity | reflexivity].
Defined.

End GithubMore.

(** * Further properties of the local-vault tools *)

Module VaultMore.
Import Obsidian VaultFacts.

Ltac run :=
  repeat progress
    (rewrite ?run_bind, ?run_ret; unfold path_truthy, load_VAULT_PATH;
     cbn [negb andb default from_option id]; cbv beta iota).

Section Process.

Context (cwd : list string).

(** X12.  With the vault configured, in a tree of text files that the
    process may search and read, and for a path made of names a directory
    takes that fits the limit on a path, [get_obsidian_note] returns the
    text of the note exactly when the resolved path has the suffix [.md]
    and names a regular file, the text being read with universal
    newlines; in every other case (a missing path, a directory, another
    suffix) it reports the note as not found.  It never changes the file
    system. *)
Theorem get_note_reads_markdown_files_only (vault : Path) (note_path : string) (fs : fstree) :
  let full_path := resolve cwd (joinpath vault note_path) in
  forallb valid_name (abs_parts cwd (joinpath vault note_path)) = true →
  path_fits full_path = true →
  get_obsidian_note cwd (Some vault) note_path fs
  = (Ok (match entry cwd fs full_path with
         | Some (File s) =>
             if bool_decide (suffix full_path = ".md")
             then json_dumps (JObj [("path", JStr note_path);
                                    ("content", JStr (universal_newlines s))])
             else note_not_found note_path
         | _ => note_not_found note_path
         end), fs).
Proof.
  intros full_path Hnames _. unfold get_obsidian_note, get_path. run. fold full_path.
  pose proof (resolved_lookup_valid cwd _ fs Hnames) as Hlookup. fold full_path in Hlookup.
  destruct (decide (suffix full_path = ".md")) as [Hmd|Hmd].
  - rewrite (bool_decide_eq_true_2 _ Hmd).
    destruct (entry cwd fs full_path) as [[|s]|] eqn:Hentry.
    + unfold read_note. rewrite (bool_decide_eq_true_2 _ Hmd). run.
      rewrite (is_file_entry cwd _ _ Hlookup), Hentry. reflexivity.
    + rewrite (read_note_reads cwd _ _ s Hmd Hentry). reflexivity.
    + unfold read_note. rewrite (bool_decide_eq_true_2 _ Hmd). run.
      rewrite (is_file_entry cwd _ _ Hlookup), Hentry. reflexivity.
  - unfold read_note. rewrite (bool_decide_eq_false_2 _ Hmd). run.
    destruct (entry cwd fs full_path) as [[|s]|]; reflexivity.
Qed.

(** X24.  A name of more than [NAME_MAX] bytes is not a missing note for
    the reading and the appending tool: when the path holds no NUL
    character and the lookup of its resolved form is refused for such a
    name, [is_file] raises the [OSError] of [stat] again, outside any
    [try], and [append_obsidian_note] raises it to its caller, as does
    [get_obsidian_note] for the suffix [.md].  The helper [append_note],
    whose body is under [except Exception], returns [False]. *)
Theorem over_long_name_raises (vault : Path) (note_path text : string) (fs : fstree) :
  let full_path := resolve cwd (joinpath vault note_path) in
  existsb has_nul (abs_parts cwd (joinpath vault note_path)) = false →
  walk fs [] (abs_parts cwd full_path) = inl ENAMETOOLONG →
  append_obsidian_note cwd (Some vault) note_path text fs
    = (Raise (Exn OSError ("[Errno 36] File name too long: '" +:+
                           path_str full_path +:+ "'")), fs)
  ∧ (suffix full_path = ".md" →
     get_obsidian_note cwd (Some vault) note_path fs
       = (Raise (Exn OSError ("[Errno 36] File name too long: '" +:+
                              path_str full_path +:+ "'")), fs))
  ∧ (suffix full_path ≠ ".md" →
     get_obsidian_note cwd (Some vault) note_path fs = (Ok (note_not_found note_path), fs))
  ∧ (∀ ensure_newline, append_note cwd full_path text ensure_newline fs = (Ok false, fs)).
Proof.
  intros full_path _ Hwalk. split; [|split; [|split]].
  - unfold append_obsidian_note, get_path. run. fold full_path.
    by rewrite (is_file_refused cwd _ _ Hwalk).
  - intros Hmd. unfold get_obsidian_note, get_path. run. fold full_path.
    unfold read_note. rewrite (bool_decide_eq_true_2 _ Hmd). run.
    by rewrite (is_file_refused cwd _ _ Hwalk).
  - intros Hmd. unfold get_obsidian_note, get_path. run. fold full_path.
    unfold read_note. by rewrite (bool_decide_eq_false_2 _ Hmd).
  - intros ensure. apply append_note_rejects. left. unfold entry. by rewrite Hwalk.
Qed.

Lemma append_note_appends_any full_path text (ensure_newline : bool) fs q s :
  walk fs [] (abs_parts cwd full_path) = inr q →
  node_at fs q = Some (File s) →
  lower (suffix full_path) = ".md" →
  append_note cwd full_path text ensure_newline fs
    = (Ok true,
       <[q := File (s +:+ (if ensure_newline then separator s else "") +:+ text)]> fs).
Proof.
  intros Hwalk Hnode Hmd. destruct ensure_newline.
  - by apply append_note_appends.
  - assert (Hq : fs !! q = Some (File s)).
    { destruct q; [discriminate|exact Hnode]. }
    unfold append_note, try_io. run.
    rewrite (is_file_at cwd _ _ _ Hwalk), Hnode. cbn [regular].
    rewrite (bool_decide_eq_true_2 _ Hmd). run.
    unfold open_append. rewrite Hwalk, Hnode. run.
    unfold append_write. rewrite Hq. reflexivity.
Qed.

(** X13.  [append_note] never raises, never creates an entry and never
    shortens a file: either it returns [False] and leaves the file system
    as it was, or it returns [True] and one regular file, which existed,
    has the appended text after its former text, with a line feed
    between the two only when [ensure_newline] is set and the former text
    is not empty and does not end a line. *)
Theorem append_extends_one_existing_file
    (full_path : Path) (text : string) (ensure_newline : bool) (fs : fstree) :
  append_note cwd full_path text ensure_newline fs = (Ok false, fs)
  ∨ ∃ q s,
      fs !! q = Some (File s)
      ∧ append_note cwd full_path text ensure_newline fs
        = (Ok true,
           <[q := File (s +:+ (if ensure_newline then separator s else "") +:+ text)]> fs).
Proof.
  destruct (decide (lower (suffix full_path) = ".md")) as [Hmd|Hmd].
  2:{ left. apply append_note_rejects. by right. }
  destruct (entry cwd fs full_path) as [[|s]|] eqn:Hentry.
  - left. apply append_note_rejects. left. by rewrite Hentry.
  - right. unfold entry in Hentry.
    destruct (walk fs [] (abs_parts cwd full_path)) as [e|q] eqn:Hwalk; [discriminate|].
    exists q, s. split.
    + destruct q; [discriminate|exact Hentry].
    + by apply append_note_appends_any.
  - left. apply append_note_rejects. left. by rewrite Hentry.
Qed.


(** ** Making directories *)

Lemma grows_refl fs : grows fs fs.
Proof. intros q. by left. Qed.

Lemma grows_trans fs1 fs2 fs3 : grows fs1 fs2 → grows fs2 fs3 → grows fs1 fs3.
Proof.
  intros H12 H23 q. destruct (H12 q) as [E12|[N1 D2]], (H23 q) as [E23|[N2 D3]].
  - left. congruence.
  - right. split; congruence.
  - right. split; congruence.
  - congruence.
Qed.

Lemma grows_insert_dir fs q : fs !! q = None → grows fs (<[q := Dir]> fs).
Proof.
  intros Hq q'. destruct (decide (q = q')) as [<-|Hne].
  - right. by rewrite lookup_insert_eq.
  - left. by rewrite lookup_insert_ne.
Qed.

Lemma os_mkdir_grows p fs r fs' : os_mkdir cwd p fs = (r, fs') → grows fs fs'.
Proof.
  unfold os_mkdir. destruct (walk fs [] (abs_parts cwd p)) as [e|q].
  - intros [= _ <-]. apply grows_refl.
  - destruct (node_at fs q) as [n|] eqn:Hnode.
    + intros [= _ <-]. apply grows_refl.
    + intros [= _ <-]. apply grows_insert_dir. by destruct q.
Qed.

Lemma is_dir_same p fs r fs' : is_dir cwd p fs = (r, fs') → fs' = fs.
Proof.
  unfold is_dir, try_io, os_stat. rewrite run_bind.
  destruct (walk fs [] (abs_parts cwd p)) as [e|q].
  - destruct e; simpl; by intros [= _ <-].
  - destruct (node_at fs q) as [[|s]|]; simpl; by intros [= _ <-].
Qed.

(** What the handler of [mkdir] does after [is_dir]. *)
Lemma after_is_dir_grows p e fs0 fs r fs' :
  grows fs0 fs →
  (d ← is_dir cwd p; if d : bool then mret () else raise e) fs = (r, fs') →
  grows fs0 fs'.
Proof.
  intros Hg. rewrite run_bind.
  destruct (is_dir cwd p fs) as [[[]|e'] fs2] eqn:Hd;
    apply is_dir_same in Hd; subst fs2; by intros [= _ <-].
Qed.

Lemma mkdir_grows p exist_ok fs r fs' : mkdir cwd p exist_ok fs = (r, fs') → grows fs fs'.
Proof.
  unfold mkdir, try_io.
  destruct (os_mkdir cwd p fs) as [[[]|e] fs1] eqn:Hmk.
  - intros [= _ <-]. by eapply os_mkdir_grows.
  - pose proof (os_mkdir_grows _ _ _ _ Hmk) as Hg.
    destruct (is_OSError e); [|intros [= _ <-]; exact Hg].
    case_bool_decide; [intros [= _ <-]; exact Hg|].
    destruct exist_ok; simpl; [|intros [= _ <-]; exact Hg].
    by apply after_is_dir_grows.
Qed.

Lemma mkdir_parents_rev_grows a rparts : ∀ fs r fs',
  mkdir_parents_rev cwd a rparts fs = (r, fs') → grows fs fs'.
Proof.
  induction rparts as [|x rparent IH]; intros fs r fs'; cbn [mkdir_parents_rev];
    unfold try_io;
    destruct (os_mkdir cwd _ fs) as [[[]|e] fs1] eqn:Hmk;
    pose proof (os_mkdir_grows _ _ _ _ Hmk) as Hg;
    try (intros [= _ <-]; exact Hg);
    (destruct (is_OSError e); [|intros [= _ <-]; exact Hg]);
    (case_bool_decide; [|by apply after_is_dir_grows]).
  - intros [= _ <-]. exact Hg.
  - rewrite run_bind.
    destruct (mkdir_parents_rev cwd a rparent fs1) as [[[]|e'] fs2] eqn:Hrec.
    + intros Hmkdir. apply mkdir_grows in Hmkdir.
      eapply grows_trans; [exact Hg|]. eapply grows_trans; [|exact Hmkdir]. by eapply IH.
    + intros [= _ <-]. eapply grows_trans; [exact Hg|]. by eapply IH.
Qed.

(** X15.  [create_note] never raises, and it changes one file at most:
    when it returns [None], the file system holds what it held and new
    directories only; when it returns a path, the path is the vault
    joined with the given one, [.md] added if missing, the note holds
    the content at the location of that path, where no directory stood,
    and every other entry is as it was or is a new directory.  No
    directory is removed or replaced, and no other file is touched. *)
Theorem create_note_keeps_the_rest (vault : Path) (p c : string) (fs : fstree) :
  ∃ created fs',
    create_note cwd (Some vault) p c fs = (Ok created, fs')
    ∧ match created with
      | None => grows fs fs'
      | Some full_path =>
          full_path = joinpath vault (with_md p)
          ∧ ∃ q, walk fs' [] (abs_parts cwd full_path) = inr q
                 ∧ fs' !! q = Some (File c)
                 ∧ fs !! q ≠ Some Dir
                 ∧ ∀ q', q' ≠ q →
                     fs' !! q' = fs !! q' ∨ (fs !! q' = None ∧ fs' !! q' = Some Dir)
      end.
Proof.
  unfold create_note. run.
  assert ((if negb (endswith p ".md") then p +:+ ".md" else p) = with_md p) as ->.
  { unfold with_md. by destruct (endswith p ".md"). }
  unfold try_io. rewrite run_bind.
  set (full_path := joinpath vault (with_md p)).
  destruct (mkdir_parents cwd (parent full_path) fs) as [[[]|e] fs1] eqn:Hmk;
    pose proof (mkdir_parents_rev_grows _ _ _ _ _ Hmk) as Hg.
  2:{ exists None, fs1. by split. }
  rewrite run_bind. unfold write_text.
  destruct (walk fs1 [] (abs_parts cwd full_path)) as [e|q0] eqn:Hwalk.
  { exists None, fs1. by split. }
  assert (Hwritten : node_at fs1 q0 ≠ Some Dir →
            ∃ q, walk (<[q0 := File c]> fs1) [] (abs_parts cwd full_path) = inr q
                 ∧ (<[q0 := File c]> fs1) !! q = Some (File c)
                 ∧ fs !! q ≠ Some Dir
                 ∧ ∀ q', q' ≠ q →
                     (<[q0 := File c]> fs1) !! q' = fs !! q'
                     ∨ (fs !! q' = None ∧ (<[q0 := File c]> fs1) !! q' = Some Dir)).
  { intros Hnode. exists q0. split; [by apply walk_insert_file|].
    split; [apply lookup_insert_eq|]. split.
    - intros Hdir. apply Hnode. destruct q0 as [|x q0]; [done|]. simpl.
      destruct (Hg (x :: q0)) as [->|[? ?]]; congruence.
    - intros q' Hq'. rewrite lookup_insert_ne by done. apply Hg. }
  destruct (node_at fs1 q0) as [[|s0]|] eqn:Hnode.
  { exists None, fs1. by split. }
  all: exists (Some full_path), (<[q0 := File c]> fs1); (split; [reflexivity|]);
    (split; [reflexivity|]); by apply Hwritten.
Qed.


(** ** Creating in an existing folder *)

Lemma with_md_eq p : (if negb (endswith p ".md") then p +:+ ".md" else p) = with_md p.
Proof. unfold with_md. by destruct (endswith p ".md"). Qed.

Lemma parts_snoc vault p :
  ∃ lp n, parts (joinpath vault (with_md p)) = lp ++ [n] ∧ n ≠ "..".
Proof.
  destruct (joinpath_last vault (with_md p) (with_md_endswith p)) as (n & Hlast & Hn).
  apply last_Some in Hlast as [lp Hlp]. exists lp, n. split; [exact Hlp|].
  by destruct (endswith_md_name n Hn) as (_ & _ & ?).
Qed.

Lemma abs_parts_parent full_path lp n :
  parts full_path = lp ++ [n] →
  abs_parts cwd full_path = abs_parts cwd (parent full_path) ++ [n].
Proof.
  intros H. unfold abs_parts, parent. simpl. rewrite H, removelast_last.
  destruct (path_anchor full_path); by rewrite ?app_assoc.
Qed.

Lemma parent_is_dir full_path lp n fs q :
  parts full_path = lp ++ [n] →
  walk fs [] (abs_parts cwd full_path) = inr q →
  entry cwd fs (parent full_path) = Some Dir.
Proof.
  intros Hparts. rewrite (abs_parts_parent _ _ _ Hparts). intros Hwalk.
  apply walk_app_inv in Hwalk as (q' & H1 & H2). unfold entry. rewrite H1.
  by apply walk_cons_inv in H2 as (_ & Hdir & _).
Qed.

(** In a folder that exists [create_note] makes no directory: it writes
    the file, unless a directory has its name. *)
Lemma create_note_in_folder vault p c fs q :
  walk fs [] (abs_parts cwd (joinpath vault (with_md p))) = inr q →
  create_note cwd (Some vault) p c fs
  = match node_at fs q with
    | Some Dir => (Ok None, fs)
    | _ => (Ok (Some (joinpath vault (with_md p))), <[q := File c]> fs)
    end.
Proof.
  intros Hwalk. destruct (parts_snoc vault p) as (lp & n & Hparts & _).
  unfold create_note. run. rewrite with_md_eq. unfold try_io. rewrite run_bind.
  rewrite mkdir_parents_existing by (by eapply parent_is_dir).
  rewrite run_bind. unfold write_text. rewrite Hwalk.
  by destruct (node_at fs q) as [[|s]|].
Qed.

(** X16.  [create_note] overwrites: called again on the path of a note
    it created, it succeeds, and the note then holds the new content
    alone; no other entry changes. *)
Theorem create_note_overwrites
    (vault : Path) (p c1 c2 : string) (fs fs1 : fstree) (full_path : Path) :
  create_note cwd (Some vault) p c1 fs = (Ok (Some full_path), fs1) →
  ∃ q, fs1 !! q = Some (File c1)
       ∧ create_note cwd (Some vault) p c2 fs1
         = (Ok (Some full_path), <[q := File c2]> fs1).
Proof.
  intros Hcreate.
  destruct (create_note_inv _ _ _ _ _ _ _ Hcreate)
    as (-> & fsm & q & _ & Hwalk & Hnode & ->).
  pose proof (walk_insert_file fsm c1 _ _ _ Hwalk Hnode) as Hwalk'.
  assert (Hq : q ≠ []) by (intros ->; by apply Hnode).
  exists q. split; [apply lookup_insert_eq|].
  rewrite (create_note_in_folder _ _ _ _ _ Hwalk').
  destruct q; [done|]. simpl. by rewrite lookup_insert_eq.
Qed.

(** X17.  A directory in the place of the note makes the creation fail:
    [create_note] returns [None], the tool the payload
    [Failed to create note at: ...] with the path as it was given, and
    the file system is unchanged. *)
Theorem create_note_refuses_a_directory (vault : Path) (p c : string) (fs : fstree) :
  entry cwd fs (joinpath vault (with_md p)) = Some Dir →
  create_note cwd (Some vault) p c fs = (Ok None, fs)
  ∧ create_obsidian_note cwd (Some vault) p c fs
    = (Ok (error_payload ("Failed to create note at: " +:+ p)), fs).
Proof.
  intros Hentry. unfold entry in Hentry.
  destruct (walk fs [] (abs_parts cwd (joinpath vault (with_md p)))) as [e|q] eqn:Hwalk;
    [discriminate|].
  assert (Hcreate : create_note cwd (Some vault) p c fs = (Ok None, fs)).
  { by rewrite (create_note_in_folder _ _ _ _ _ Hwalk), Hentry. }
  split; [exact Hcreate|].
  unfold create_obsidian_note. run. rewrite Hcreate. reflexivity.
Qed.

Lemma relative_to_joined vault s :
  path_anchor (parse_path s) = Relative →
  relative_to (joinpath vault s) vault = Ok (parse_path s).
Proof.
  intros Hrel. unfold joinpath. rewrite Hrel. unfold relative_to. simpl.
  rewrite bool_decide_eq_true_2 by done.
  rewrite bool_decide_eq_true_2 by (by eexists).
  simpl. rewrite drop_app_length. destruct (parse_path s). simpl in *. by subst.
Qed.

(** X18.  For a path that is not absolute, the tool reports the created
    note by its path relative to the vault as [pathlib] writes it: [.md]
    added if missing, empty components and [.] dropped. *)
Theorem created_note_is_reported_relative
    (vault : Path) (p c : string) (fs fs' : fstree) (full_path : Path) :
  create_note cwd (Some vault) p c fs = (Ok (Some full_path), fs') →
  path_anchor (parse_path (with_md p)) = Relative →
  create_obsidian_note cwd (Some vault) p c fs
  = (Ok (note_created (path_str (parse_path (with_md p)))), fs').
Proof.
  intros Hcreate Hrel.
  destruct (create_note_inv _ _ _ _ _ _ _ Hcreate) as (-> & _).
  unfold create_obsidian_note. run. rewrite Hcreate. unfold try_io. run.
  unfold lift. rewrite (relative_to_joined _ _ Hrel). reflexivity.
Qed.

(** X19.  An absolute path replaces the vault: the note is written at
    that path, and when the path is not below the vault the tool, the
    note written, returns the payload
    [Failed to determine relative path for created note: ...]. *)
Theorem absolute_path_leaves_the_vault
    (vault : Path) (p c : string) (fs fs' : fstree) (full_path : Path) :
  create_note cwd (Some vault) p c fs = (Ok (Some full_path), fs') →
  path_anchor (parse_path (with_md p)) ≠ Relative →
  ¬ parts vault `prefix_of` parts (parse_path (with_md p)) →
  full_path = parse_path (with_md p)
  ∧ create_obsidian_note cwd (Some vault) p c fs
    = (Ok (error_payload ("Failed to determine relative path for created note: " +:+
                          path_str full_path)), fs').
Proof.
  intros Hcreate Habs Hout.
  destruct (create_note_inv _ _ _ _ _ _ _ Hcreate) as (Hfull & _).
  assert (Hjoin : joinpath vault (with_md p) = parse_path (with_md p)).
  { unfold joinpath. by destruct (path_anchor (parse_path (with_md p))). }
  rewrite Hjoin in Hfull. subst full_path. split; [reflexivity|].
  unfold create_obsidian_note. run. rewrite Hcreate. unfold try_io. run.
  unfold lift, relative_to. rewrite (bool_decide_eq_false_2 _ Hout), andb_false_r.
  reflexivity.
Qed.

(** X20.  A path and the same path followed by [.md] name the same note:
    [create_note] does the same on both. *)
Theorem extension_is_added_once (vault : option Path) (p c : string) (fs : fstree) :
  endswith p ".md" = false →
  create_note cwd vault (p +:+ ".md") c fs = create_note cwd vault p c fs.
Proof.
  intros Hp. unfold create_note. rewrite !with_md_eq.
  assert (with_md (p +:+ ".md") = with_md p) as ->; [|reflexivity].
  assert (He : endswith (p +:+ ".md") ".md" = true).
  { pose proof (with_md_endswith p) as H. unfold with_md in H. by rewrite Hp in H. }
  unfold with_md. by rewrite He, Hp.
Qed.


(** ** Creating, appending, reading *)

Lemma append_tool_appends vault note_path text fs q s :
  walk fs [] (abs_parts cwd (resolve cwd (joinpath vault note_path))) = inr q →
  node_at fs q = Some (File s) →
  lower (suffix (resolve cwd (joinpath vault note_path))) = ".md" →
  append_obsidian_note cwd (Some vault) note_path text fs
  = (Ok (note_appended note_path), <[q := File (s +:+ separator s +:+ text)]> fs).
Proof.
  intros Hwalk Hnode Hmd. unfold append_obsidian_note, get_path. run.
  rewrite (is_file_at cwd _ _ _ Hwalk), Hnode. cbn [regular]. run.
  by rewrite (append_note_appends cwd _ text fs q s Hwalk Hnode Hmd).
Qed.

(** X21.  The three tools compose: after [create_note] has written a
    note (whose file name is not just [.md]), appending to it through
    the tool succeeds and reading it through the tool returns the
    content, the separating line feed if one is due, and the appended
    text, as text mode reads them. *)
Theorem create_append_read
    (vault : Path) (p c text : string) (fs fs1 : fstree) (full_path : Path) :
  create_note cwd (Some vault) p c fs = (Ok (Some full_path), fs1) →
  name full_path ≠ ".md" →
  ∃ q, fs1 !! q = Some (File c)
    ∧ append_obsidian_note cwd (Some vault) (with_md p) text fs1
      = (Ok (note_appended (with_md p)), <[q := File (c +:+ separator c +:+ text)]> fs1)
    ∧ get_obsidian_note cwd (Some vault) (with_md p)
        (<[q := File (c +:+ separator c +:+ text)]> fs1)
      = (Ok (json_dumps (JObj
           [("path", JStr (with_md p));
            ("content", JStr (universal_newlines (c +:+ separator c +:+ text)))])),
         <[q := File (c +:+ separator c +:+ text)]> fs1).
Proof.
  intros Hcreate Hname.
  destruct (create_note_inv _ _ _ _ _ _ _ Hcreate)
    as (-> & fsm & q & _ & Hwalk & Hnode & ->).
  destruct (joinpath_last vault (with_md p) (with_md_endswith p)) as (n & Hlast & Hn).
  assert (Hn' : name (joinpath vault (with_md p)) = n) by (unfold name; by rewrite Hlast).
  assert (Hq : q ≠ []) by (intros ->; by apply Hnode).
  pose proof (walk_insert_file fsm c _ _ _ Hwalk Hnode) as Hwalk1.
  assert (Hsuffix : suffix (resolve cwd (joinpath vault (with_md p))) = ".md").
  { unfold suffix. rewrite (name_resolve cwd (joinpath vault (with_md p)) n Hlast).
    - apply name_suffix_md; [exact Hn|congruence].
    - by destruct (endswith_md_name n Hn) as (_ & _ & ?). }
  assert (Hres : ∀ fs', walk fs' [] (abs_parts cwd (joinpath vault (with_md p))) = inr q →
                        walk fs' [] (abs_parts cwd (resolve cwd (joinpath vault (with_md p)))) = inr q).
  { intros fs' Hw. rewrite abs_parts_resolve, (walk_normalize _ _ _ Hw).
    by apply (walk_resolved _ _ _ Hw). }
  assert (Hfile1 : node_at (<[q := File c]> fsm) q = Some (File c)).
  { destruct q; [done|]. simpl. apply lookup_insert_eq. }
  exists q. split; [apply lookup_insert_eq|]. split.
  - apply append_tool_appends; [by apply Hres|exact Hfile1|by rewrite Hsuffix].
  - set (new := c +:+ separator c +:+ text).
    assert (Hwalk2 : walk (<[q := File new]> (<[q := File c]> fsm)) []
                       (abs_parts cwd (joinpath vault (with_md p))) = inr q).
    { apply walk_insert_file; [exact Hwalk1|]. by rewrite Hfile1. }
    unfold get_obsidian_note, get_path. run.
    rewrite (read_note_reads cwd _ _ new Hsuffix); [reflexivity|].
    unfold entry. rewrite (Hres _ Hwalk2).
    destruct q; [done|]. simpl. apply lookup_insert_eq.
Qed.

(** ** Missing folders *)

Lemma node_at_insert_ne (fs : fstree) q q' n :
  q ≠ q' → node_at (<[q := n]> fs) q' = node_at fs q'.
Proof. intros H. destruct q'; [reflexivity|]. simpl. by rewrite lookup_insert_ne. Qed.

Lemma node_at_insert_eq (fs : fstree) q n : q ≠ [] → node_at (<[q := n]> fs) q = Some n.
Proof. intros H. destruct q; [done|]. simpl. apply lookup_insert_eq. Qed.

Lemma abs_parts_base a ps : abs_parts cwd (MkPath a ps) = anchor_base cwd a ++ ps.
Proof. by destruct a. Qed.

Lemma walk_plain_dirs fs l :
  plain l → forallb valid_name l = true →
  (∀ k, (k < List.length l)%nat → node_at fs (take k l) = Some Dir) →
  walk fs [] l = inr l.
Proof. intros Hplain Hvalid Hdirs. by apply (walk_plain fs l []). Qed.

Lemma walk_plain_inv fs l q :
  plain l → walk fs [] l = inr q →
  q = l ∧ ∀ k, (k < List.length l)%nat → node_at fs (take k l) = Some Dir.
Proof.
  intros Hplain Hwalk.
  assert (q = l) as ->.
  { rewrite <- (walk_normalize _ _ _ Hwalk). unfold normalize.
    by rewrite foldl_step_plain. }
  split; [reflexivity|].
  destruct (walk_dirs_above fs l [] l Hwalk) as [H _]; [|constructor|exact H].
  intros k Hk. simpl in Hk. lia.
Qed.

Lemma walk_no_file fs rest : ∀ cur,
  plain rest → forallb valid_name rest = true →
  (∀ k s, (k < List.length rest)%nat → node_at fs (cur ++ take k rest) ≠ Some (File s)) →
  walk fs cur rest = inr (cur ++ rest) ∨ walk fs cur rest = inl ENOENT.
Proof.
  induction rest as [|c rest IH]; intros cur Hplain Hvalid Hnofile.
  - left. simpl. by rewrite app_nil_r.
  - inversion Hplain as [|? ? Hc Hrest]; subst.
    pose proof (Hnofile 0%nat) as H0. simpl in H0. rewrite app_nil_r in H0.
    destruct (node_at fs cur) as [[|s]|] eqn:Hcur.
    + rewrite (walk_cons_dir _ _ _ _ Hvalid Hcur).
      simpl in Hvalid. apply andb_true_iff in Hvalid as [_ Hvalid].
      unfold step. rewrite bool_decide_eq_false_2 by done.
      destruct (IH (cur ++ [c]) Hrest Hvalid) as [->| ->];
        [|left; by rewrite <- app_assoc|by right].
      intros k s Hk. rewrite <- app_assoc. apply (Hnofile (S k)). simpl. lia.
    + exfalso. eapply H0; [simpl; lia|done].
    + right. by rewrite walk_cons, (valid_names_no_nul _ Hvalid), Hcur.
Qed.

Lemma mkdir_parents_rev_existing a rparts fs :
  entry cwd fs (MkPath a (rev rparts)) = Some Dir →
  mkdir_parents_rev cwd a rparts fs = (Ok (), fs).
Proof.
  intros H. pose proof (mkdir_parents_existing cwd _ _ H) as Hmk.
  unfold mkdir_parents in Hmk. simpl in Hmk. by rewrite rev_involutive in Hmk.
Qed.

Lemma mkdir_existing p fs :
  entry cwd fs p = Some Dir → mkdir cwd p true fs = (Ok (), fs).
Proof.
  intros Hentry. unfold mkdir, try_io, os_mkdir. unfold entry in Hentry.
  destruct (walk fs [] (abs_parts cwd p)) as [e|q] eqn:Hwalk; [discriminate|].
  rewrite Hentry. simpl. rewrite run_bind, (is_dir_at cwd _ _ _ Hwalk).
  by rewrite Hentry.
Qed.

Lemma mkdir_missing p fs q :
  walk fs [] (abs_parts cwd p) = inr q → node_at fs q = None →
  mkdir cwd p true fs = (Ok (), <[q := Dir]> fs).
Proof. intros Hwalk Hnode. unfold mkdir, try_io, os_mkdir. by rewrite Hwalk, Hnode. Qed.

Lemma mkdir_parents_rev_missing a rparts fs q :
  walk fs [] (abs_parts cwd (MkPath a (rev rparts))) = inr q → node_at fs q = None →
  mkdir_parents_rev cwd a rparts fs = (Ok (), <[q := Dir]> fs).
Proof.
  intros Hwalk Hnode.
  destruct rparts; cbn [mkdir_parents_rev]; unfold try_io, os_mkdir;
    by rewrite Hwalk, Hnode.
Qed.

Lemma mkdir_parents_rev_enoent a x rparent fs :
  walk fs [] (abs_parts cwd (MkPath a (rev (x :: rparent)))) = inl ENOENT →
  mkdir_parents_rev cwd a (x :: rparent) fs
  = (_ ← mkdir_parents_rev cwd a rparent; mkdir cwd (MkPath a (rev (x :: rparent))) true) fs.
Proof.
  intros Hwalk. cbn [mkdir_parents_rev]. unfold try_io at 1, os_mkdir at 1.
  rewrite Hwalk. reflexivity.
Qed.

(** [mkdir(parents=True, exist_ok=True)] on a path without [..], from an
    existing base and with no regular file on the way: it succeeds, every
    prefix of the path is a directory afterwards, and only prefixes of
    the path are touched. *)
Lemma mkdir_parents_rev_makes a rparts : ∀ fs,
  plain (anchor_base cwd a ++ rev rparts) →
  forallb valid_name (anchor_base cwd a ++ rev rparts) = true →
  (∀ k, (k ≤ List.length (anchor_base cwd a))%nat →
        node_at fs (take k (anchor_base cwd a ++ rev rparts)) = Some Dir) →
  (∀ k s, node_at fs (take k (anchor_base cwd a ++ rev rparts)) ≠ Some (File s)) →
  ∃ fs', mkdir_parents_rev cwd a rparts fs = (Ok (), fs')
         ∧ (∀ k, node_at fs' (take k (anchor_base cwd a ++ rev rparts)) = Some Dir)
         ∧ (∀ q, (∀ k, q ≠ take k (anchor_base cwd a ++ rev rparts)) →
                 fs' !! q = fs !! q).
Proof.
  induction rparts as [|x rparent IH]; intros fs Hplain Hvalid Hbase Hnofile.
  - simpl rev in *. rewrite app_nil_r in *. exists fs.
    assert (Hall : ∀ k, node_at fs (take k (anchor_base cwd a)) = Some Dir).
    { intros k. destruct (decide (k ≤ List.length (anchor_base cwd a))%nat) as [Hk|Hk].
      - by apply Hbase.
      - rewrite take_ge by lia. rewrite <- (take_ge (anchor_base cwd a)
          (List.length (anchor_base cwd a))) at 1 by lia. by apply Hbase. }
    split; [|split; [exact Hall|done]].
    apply mkdir_parents_rev_existing. unfold entry.
    rewrite abs_parts_base. simpl rev. rewrite app_nil_r.
    rewrite walk_plain_dirs by auto.
    rewrite <- (take_ge (anchor_base cwd a) (List.length (anchor_base cwd a))) by lia.
    apply Hall.
  - set (l' := anchor_base cwd a ++ rev rparent) in *.
    assert (Hl : anchor_base cwd a ++ rev (x :: rparent) = l' ++ [x]).
    { simpl. by rewrite app_assoc. }
    rewrite Hl in *. set (l := l' ++ [x]) in *.
    assert (Hlen : List.length l = S (List.length l')).
    { unfold l. rewrite length_app. simpl. lia. }
    assert (Htake : ∀ k, (k ≤ List.length l')%nat → take k l = take k l').
    { intros k Hk. unfold l. by rewrite take_app_le. }
    assert (Hfull : take (List.length l) l = l) by (by rewrite take_ge).
    assert (Hne : l ≠ []) by (unfold l; by destruct l').
    assert (Hprefix : ∀ k, take k l = l ∨ ∃ k', (k' ≤ List.length l')%nat ∧ take k l = take k' l').
    { intros k. destruct (decide (k ≤ List.length l')%nat).
      - right. exists k. split; [done|by apply Htake].
      - left. apply take_ge. lia. }
    assert (Habs : abs_parts cwd (MkPath a (rev (x :: rparent))) = l).
    { by rewrite abs_parts_base, Hl. }
    apply Forall_app in Hplain as Hplain'. destruct Hplain' as [Hplain' _].
    assert (Hvalid' : forallb valid_name l' = true).
    { unfold l in Hvalid. rewrite forallb_app in Hvalid.
      by apply andb_true_iff in Hvalid as [? _]. }
    assert (Hdiff : ∀ k, (k ≤ List.length l')%nat → l ≠ take k l').
    { intros k Hk E. apply (f_equal List.length) in E.
      rewrite length_take in E. lia. }
    destruct (walk_no_file fs l [] Hplain Hvalid) as [Hwalk|Hwalk].
    { intros k s _. apply Hnofile. }
    + simpl in Hwalk. destruct (walk_plain_inv fs l l Hplain Hwalk) as [_ Hdirs].
      destruct (node_at fs l) as [[|s]|] eqn:Hnode.
      * exists fs. split; [|split; [|done]].
        -- apply mkdir_parents_rev_existing. unfold entry. by rewrite Habs, Hwalk.
        -- intros k. destruct (Hprefix k) as [->|(k' & Hk' & ->)]; [exact Hnode|].
           rewrite <- Htake by done. apply Hdirs. lia.
      * exfalso. apply (Hnofile (List.length l) s). by rewrite Hfull.
      * exists (<[l := Dir]> fs). split; [|split].
        -- apply mkdir_parents_rev_missing; [by rewrite Habs|done].
        -- intros k. destruct (Hprefix k) as [->|(k' & Hk' & ->)].
           ++ by apply node_at_insert_eq.
           ++ rewrite node_at_insert_ne by (by apply Hdiff).
              rewrite <- Htake by done. apply Hdirs. lia.
        -- intros q Hq. apply lookup_insert_ne. rewrite <- Hfull. apply not_eq_sym, Hq.
    + destruct (IH fs Hplain' Hvalid') as (fs1 & Hrec & Hdirs1 & Hframe1).
      { intros k Hk. rewrite <- Htake.
        - by apply Hbase.
        - unfold l'. rewrite length_app. lia. }
      { intros k s. destruct (decide (k ≤ List.length l')%nat) as [Hk|Hk].
        - rewrite <- Htake by done. apply Hnofile.
        - rewrite take_ge by lia. rewrite <- (take_ge l' (List.length l')) by lia.
          rewrite <- Htake by done. apply Hnofile. }
      rewrite mkdir_parents_rev_enoent by (by rewrite Habs). rewrite run_bind, Hrec.
      assert (Hwalk1 : walk fs1 [] l = inr l).
      { apply walk_plain_dirs; [done|done|].
        intros k Hk. rewrite Htake by lia. apply Hdirs1. }
      assert (Hsame : node_at fs1 l = node_at fs l).
      { destruct l as [|y l0] eqn:El; [done|]. simpl. apply Hframe1.
        intros k E. destruct (decide (k ≤ List.length l')%nat) as [Hk|Hk].
        - by apply (Hdiff k).
        - rewrite take_ge in E by lia. apply (Hdiff (List.length l')); [done|].
          by rewrite take_ge by lia. }
      destruct (node_at fs l) as [[|s]|] eqn:Hnode.
      * exists fs1. split; [|split].
        -- apply mkdir_existing. unfold entry. by rewrite Habs, Hwalk1, Hsame.
        -- intros k. destruct (Hprefix k) as [->|(k' & Hk' & ->)]; [exact Hsame|].
           apply Hdirs1.
        -- intros q Hq. apply Hframe1. intros k E.
           destruct (decide (k ≤ List.length l')%nat) as [Hk|Hk].
           ++ apply (Hq k). by rewrite Htake.
           ++ apply (Hq (List.length l')). rewrite Htake by done.
              rewrite take_ge in E by lia. by rewrite take_ge by lia.
      * exfalso. apply (Hnofile (List.length l) s). by rewrite Hfull.
      * exists (<[l := Dir]> fs1). split; [|split].
        -- apply mkdir_missing; [by rewrite Habs|by rewrite Hsame].
        -- intros k. destruct (Hprefix k) as [->|(k' & Hk' & ->)].
           ++ by apply node_at_insert_eq.
           ++ rewrite node_at_insert_ne by (by apply Hdiff). apply Hdirs1.
        -- intros q Hq. rewrite lookup_insert_ne.
           ++ apply Hframe1. intros k E.
              destruct (decide (k ≤ List.length l')%nat) as [Hk|Hk].
              ** apply (Hq k). by rewrite Htake.
              ** apply (Hq (List.length l')). rewrite Htake by done.
                 rewrite take_ge in E by lia. by rewrite take_ge by lia.
           ++ rewrite <- Hfull. apply not_eq_sym, Hq.
Qed.


(** X22.  [create_note] makes the folders that are missing, in a tree
    the process may write.  When the location of the note is made of
    names a directory takes, none of them [..], and the path fits the
    limit on a path, when the working directory exists, no regular file
    stands where a folder is needed and no directory where the note goes,
    the creation succeeds;
    afterwards every folder on the way is a directory and the note holds
    the content, and no entry other than these has changed. *)
Theorem create_note_makes_missing_folders (vault : Path) (p c : string) (fs : fstree) :
  let full_path := joinpath vault (with_md p) in
  let l := abs_parts cwd full_path in
  plain l →
  forallb valid_name l = true →
  path_fits full_path = true →
  (∀ k, (k ≤ List.length cwd)%nat → node_at fs (take k cwd) = Some Dir) →
  (∀ k s, (k < List.length l)%nat → node_at fs (take k l) ≠ Some (File s)) →
  node_at fs l ≠ Some Dir →
  ∃ fs', create_note cwd (Some vault) p c fs = (Ok (Some full_path), fs')
         ∧ (∀ k, (k < List.length l)%nat → node_at fs' (take k l) = Some Dir)
         ∧ fs' !! l = Some (File c)
         ∧ (∀ q, (∀ k, q ≠ take k l) → fs' !! q = fs !! q).
Proof.
  intros full_path l Hplain Hvalid _ Hcwd Hnofile Htarget.
  destruct (parts_snoc vault p) as (lp & n & Hparts & Hn). fold full_path in Hparts.
  set (a := path_anchor full_path).
  assert (Hparent : parent full_path = MkPath a lp).
  { unfold parent. by rewrite Hparts, removelast_last. }
  set (l' := anchor_base cwd a ++ lp).
  assert (Hl : l = l' ++ [n]).
  { unfold l, l'. rewrite (abs_parts_parent _ _ _ Hparts), Hparent.
    by rewrite abs_parts_base. }
  assert (Hlen : List.length l = S (List.length l')).
  { rewrite Hl, length_app. simpl. lia. }
  assert (Htake : ∀ k, (k ≤ List.length l')%nat → take k l = take k l').
  { intros k Hk. rewrite Hl. by rewrite take_app_le. }
  assert (Hsat : ∀ k, ∃ k', (k' ≤ List.length l')%nat ∧ take k l' = take k' l).
  { intros k. destruct (decide (k ≤ List.length l')%nat) as [Hk|Hk].
    - exists k. by rewrite Htake.
    - exists (List.length l'). split; [done|]. rewrite Htake by done.
      by rewrite !take_ge by lia. }
  assert (Hdiff : ∀ k, l ≠ take k l').
  { intros k E. apply (f_equal List.length) in E. rewrite length_take in E. lia. }
  assert (Hne : l ≠ []) by (rewrite Hl; by destruct l').
  destruct (mkdir_parents_rev_makes a (rev lp) fs) as (fs1 & Hmk & Hdirs1 & Hframe1);
    rewrite ?rev_involutive; fold l'.
  { rewrite Hl in Hplain. by apply Forall_app in Hplain as [? _]. }
  { rewrite Hl, forallb_app in Hvalid. by apply andb_true_iff in Hvalid as [? _]. }
  { intros k Hk. destruct a; simpl in Hk.
    - unfold l'. simpl. rewrite take_app_le by done. by apply Hcwd.
    - assert (k = 0)%nat as -> by lia. done.
    - assert (k = 0)%nat as -> by lia. done. }
  { intros k s. destruct (Hsat k) as (k' & Hk' & ->). apply Hnofile. lia. }
  rewrite rev_involutive in Hdirs1, Hframe1. fold l' in Hdirs1, Hframe1.
  assert (Hwalk1 : walk fs1 [] l = inr l).
  { apply walk_plain_dirs; [done|done|].
    intros k Hk. rewrite Htake by lia. apply Hdirs1. }
  assert (Hsame : node_at fs1 l = node_at fs l).
  { destruct l as [|y l0] eqn:El; [done|]. simpl. apply Hframe1. intros k. apply Hdiff. }
  exists (<[l := File c]> fs1). split; [|split; [|split]].
  - unfold create_note. run. rewrite with_md_eq. fold full_path.
    unfold try_io. rewrite run_bind. unfold mkdir_parents. rewrite Hparent. simpl.
    rewrite Hmk. rewrite run_bind. unfold write_text. fold l. rewrite Hwalk1, Hsame.
    by destruct (node_at fs l) as [[|s]|].
  - intros k Hk. rewrite node_at_insert_ne.
    + rewrite Htake by lia. apply Hdirs1.
    + intros E. apply (f_equal List.length) in E. rewrite length_take in E. lia.
  - apply lookup_insert_eq.
  - intros q Hq. rewrite lookup_insert_ne.
    + apply Hframe1. intros k E. destruct (Hsat k) as (k' & _ & Hk'). apply (Hq k').
      by rewrite <- Hk'.
    + intros E. apply (Hq (List.length l)). by rewrite take_ge.
Qed.

(** X25.  A note whose name has more than [NAME_MAX] bytes is not
    created: in a folder that exists, [write_text] raises the [OSError]
    of [open], [create_note] returns [None] and the tool the payload
    [Failed to create note at: ...]; the file system is unchanged. *)
Theorem over_long_name_is_not_created (vault : Path) (p c : string) (fs : fstree) :
  let full_path := joinpath vault (with_md p) in
  entry cwd fs (parent full_path) = Some Dir →
  walk fs [] (abs_parts cwd full_path) = inl ENAMETOOLONG →
  write_text cwd full_path c fs
    = (Raise (Exn OSError ("[Errno 36] File name too long: '" +:+
                           path_str full_path +:+ "'")), fs)
  ∧ create_note cwd (Some vault) p c fs = (Ok None, fs)
  ∧ create_obsidian_note cwd (Some vault) p c fs
    = (Ok (error_payload ("Failed to create note at: " +:+ p)), fs).
Proof.
  intros full_path Hparent Hwalk.
  assert (Hwrite : write_text cwd full_path c fs
            = (Raise (Exn OSError ("[Errno 36] File name too long: '" +:+
                                   path_str full_path +:+ "'")), fs)).
  { unfold write_text. by rewrite Hwalk. }
  assert (Hcreate : create_note cwd (Some vault) p c fs = (Ok None, fs)).
  { unfold create_note. run. rewrite with_md_eq. fold full_path.
    unfold try_io. rewrite run_bind, (mkdir_parents_existing cwd _ _ Hparent).
    by rewrite run_bind, Hwrite. }
  split; [exact Hwrite|]. split; [exact Hcreate|].
  unfold create_obsidian_note. run. by rewrite Hcreate.
Qed.

Lemma create_note_total vault p c fs :
  ∃ created fs', create_note cwd (Some vault) p c fs = (Ok created, fs').
Proof.
  unfold create_note. run. unfold try_io.
  match goal with |- context [match ?m with _ => _ end] => destruct m as [[o|e] fs'] end;
    eauto.
Qed.

(** X23.  With the vault configured [create_obsidian_note] never raises.
    Its effect on the file system is that of [create_note], and its
    payload tells the three outcomes apart: the failure to create, the
    created note by its path relative to the vault, and the note created
    at a path that is not below the vault. *)
Theorem create_tool_never_raises (vault : Path) (p c : string) (fs : fstree) :
  ∃ created fs',
    create_note cwd (Some vault) p c fs = (Ok created, fs')
    ∧ create_obsidian_note cwd (Some vault) p c fs
      = (Ok (match created with
             | None => error_payload ("Failed to create note at: " +:+ p)
             | Some create_path =>
                 match relative_to create_path vault with
                 | Ok r => note_created (path_str r)
                 | Raise _ =>
                     error_payload ("Failed to determine relative path for created note: " +:+
                                    path_str create_path)
                 end
             end), fs').
Proof.
  destruct (create_note_total vault p c fs) as (created & fs' & Hcreate).
  exists created, fs'. split; [exact Hcreate|].
  unfold create_obsidian_note. run. rewrite Hcreate.
  destruct created as [create_path|]; [|reflexivity].
  unfold try_io. run. unfold lift.
  destruct (relative_to create_path vault) as [r|e] eqn:Hrel; [reflexivity|].
  unfold relative_to in Hrel.
  destruct (bool_decide _ && bool_decide _); [discriminate|].
  by injection Hrel as <-.
Qed.

End Process.

(** ** The further properties on the sample vaults *)


Lemma create_note_overwrites_witness :
  ∃ q, vault_with "x.md" "old" !! q = Some (File "old")
       ∧ create_note [] (Some sample_vault) "x" "new" (vault_with "x.md" "old")
         = (Ok (Some (MkPath Root ["vault"; "x.md"])),
            <[q := File "new"]> (vault_with "x.md" "old")).
Proof.
  assert (H : create_note [] (Some sample_vault) "x" "old" empty_vault
              = (Ok (Some (MkPath Root ["vault"; "x.md"])), vault_with "x.md" "old"))
    by evaluate.
  exact (create_note_overwrites [] sample_vault "x" "old" "new" empty_vault
           (vault_with "x.md" "old") (MkPath Root ["vault"; "x.md"]) H).
Defined.

Lemma create_note_refuses_a_directory_witness :
  create_note [] (Some sample_vault) "x" "hello" vault_with_dir = (Ok None, vault_with_dir)
  ∧ create_obsidian_note [] (Some sample_vault) "x" "hello" vault_with_dir
    = (Ok (error_payload "Failed to create note at: x"), vault_with_dir).
Proof.
  refine (create_note_refuses_a_directory [] sample_vault "x" "hello" vault_with_dir _).
  vm_compute. reflexivity.
Defined.

Lemma created_note_is_reported_relative_witness :
  create_obsidian_note [] (Some sample_vault) "a//b/./c" "hello" empty_vault
    = (Ok (note_created "a/b/c.md"), nested_vault "hello").
Proof.
  assert (H : create_note [] (Some sample_vault) "a//b/./c" "hello" empty_vault
              = (Ok (Some (MkPath Root ["vault"; "a"; "b"; "c.md"])), nested_vault "hello"))
    by evaluate.
  refine (created_note_is_reported_relative [] sample_vault "a//b/./c" "hello" empty_vault
            (nested_vault "hello") (MkPath Root ["vault"; "a"; "b"; "c.md"]) H _).
  vm_compute. reflexivity.
Defined.

Lemma absolute_path_leaves_the_vault_witness :
  MkPath Root ["tmp"; "x.md"] = parse_path "/tmp/x.md"
  ∧ create_obsidian_note [] (Some sample_vault) "/tmp/x" "hello" empty_vault
    = (Ok (error_payload "Failed to determine relative path for created note: /tmp/x.md"),
       outside_vault "hello").
Proof.
  assert (H : create_note [] (Some sample_vault) "/tmp/x" "hello" empty_vault
              = (Ok (Some (MkPath Root ["tmp"; "x.md"])), outside_vault "hello"))
    by evaluate.
  refine (absolute_path_leaves_the_vault [] sample_vault "/tmp/x" "hello" empty_vault
            (outside_vault "hello") (MkPath Root ["tmp"; "x.md"]) H _ _).
  - vm_compute. discriminate.
  - apply (bool_decide_eq_false_1 _). vm_compute. reflexivity.
Defined.

Lemma extension_is_added_once_witness :
  create_note [] (Some sample_vault) ("x" +:+ ".md") "hello" empty_vault
    = create_note [] (Some sample_vault) "x" "hello" empty_vault.
Proof.
  refine (extension_is_added_once [] (Some sample_vault) "x" "hello" empty_vault _).
  vm_compute. reflexivity.
Defined.

Lemma create_append_read_witness :
  ∃ q, vault_with "x.md" "hello" !! q = Some (File "hello")
    ∧ append_obsidian_note [] (Some sample_vault) (with_md "x") "more"
        (vault_with "x.md" "hello")
      = (Ok (note_appended (with_md "x")),
         <[q := File ("hello" +:+ separator "hello" +:+ "more")]> (vault_with "x.md" "hello"))
    ∧ get_obsidian_note [] (Some sample_vault) (with_md "x")
        (<[q := File ("hello" +:+ separator "hello" +:+ "more")]> (vault_with "x.md" "hello"))
      = (Ok (json_dumps (JObj
           [("path", JStr (with_md "x"));
            ("content",
             JStr (universal_newlines ("hello" +:+ separator "hello" +:+ "more")))])),
         <[q := File ("hello" +:+ separator "hello" +:+ "more")]> (vault_with "x.md" "hello")).
Proof.
  assert (H : create_note [] (Some sample_vault) "x" "hello" empty_vault
              = (Ok (Some (MkPath Root ["vault"; "x.md"])), vault_with "x.md" "hello"))
    by evaluate.
  refine (create_append_read [] sample_vault "x" "hello" "more" empty_vault
            (vault_with "x.md" "hello") (MkPath Root ["vault"; "x.md"]) H _).
  vm_compute. discriminate.
Defined.

(** From an empty file system the vault itself and two folders are made. *)
Lemma create_note_makes_missing_folders_witness :
  ∃ fs', create_note [] (Some sample_vault) "a/b/c" "hello" ∅
           = (Ok (Some (MkPath Root ["vault"; "a"; "b"; "c.md"])), fs')
         ∧ (∀ k, (k < 4)%nat →
              node_at fs' (take k ["vault"; "a"; "b"; "c.md"]) = Some Dir)
         ∧ fs' !! ["vault"; "a"; "b"; "c.md"] = Some (File "hello")
         ∧ (∀ q, (∀ k, q ≠ take k ["vault"; "a"; "b"; "c.md"]) →
                 fs' !! q = (∅ : fstree) !! q).
Proof.
  refine (create_note_makes_missing_folders [] sample_vault "a/b/c" "hello" ∅
            _ eq_refl eq_refl _ _ _).
  - repeat constructor; discriminate.
  - intros k Hk. by destruct k.
  - intros k s _. destruct k as [|[|[|[|k]]]]; discriminate.
  - discriminate.
Defined.

(** A note with DOS line endings is read with Unix ones; a directory and
    a missing path are not found. *)
Lemma get_note_reads_markdown_files_only_witness :
  get_obsidian_note [] (Some sample_vault) "x.md" (vault_with "x.md" dos_lines)
    = (Ok (json_dumps (JObj [("path", JStr "x.md"); ("content", JStr unix_lines)])),
       vault_with "x.md" dos_lines)
  ∧ get_obsidian_note [] (Some sample_vault) "x.md" vault_with_dir
    = (Ok (note_not_found "x.md"), vault_with_dir)
  ∧ get_obsidian_note [] (Some sample_vault) "missing.md" empty_vault
    = (Ok (note_not_found "missing.md"), empty_vault).
Proof.
  split; [|split].
  - exact (get_note_reads_markdown_files_only [] sample_vault "x.md"
             (vault_with "x.md" dos_lines) eq_refl eq_refl).
  - exact (get_note_reads_markdown_files_only [] sample_vault "x.md" vault_with_dir
             eq_refl eq_refl).
  - exact (get_note_reads_markdown_files_only [] sample_vault "missing.md" empty_vault
             eq_refl eq_refl).
Defined.

(** A note of 259 bytes in its name, in the vault. *)
Lemma over_long_name_raises_witness :
  append_obsidian_note [] (Some sample_vault) long_note "b" empty_vault
    = (Raise (Exn OSError ("[Errno 36] File name too long: '/vault/" +:+ long_note +:+ "'")),
       empty_vault)
  ∧ get_obsidian_note [] (Some sample_vault) long_note empty_vault
    = (Raise (Exn OSError ("[Errno 36] File name too long: '/vault/" +:+ long_note +:+ "'")),
       empty_vault).
Proof.
  assert (H : walk empty_vault [] (abs_parts [] (resolve [] (joinpath sample_vault long_note)))
              = inl ENAMETOOLONG) by (vm_compute; reflexivity).
  split.
  - exact (proj1 (over_long_name_raises [] sample_vault long_note "b" empty_vault
                    eq_refl H)).
  - refine (proj1 (proj2 (over_long_name_raises [] sample_vault long_note "b" empty_vault
                            eq_refl H)) _).
    vm_compute. reflexivity.
Defined.

Lemma over_long_name_is_not_created_witness :
  create_note [] (Some sample_vault) long_name "hello" empty_vault = (Ok None, empty_vault)
  ∧ create_obsidian_note [] (Some sample_vault) long_name "hello" empty_vault
    = (Ok (error_payload ("Failed to create note at: " +:+ long_name)), empty_vault).
Proof.
  refine (proj2 (over_long_name_is_not_created [] sample_vault long_name "hello" empty_vault
                   _ _)).
  - vm_compute. reflexivity.
  - vm_compute. reflexivity.
Defined.

End VaultMore.
